(** * IndexedDBProxy: a shallow embedding of the Dexie proxy and of its Vue plugin

    The repository is glue code around the Dexie library: the class
    [IndexedDBProxy] (packages/shared-utils, utils/indexed-db) and the Vue
    plugin that publishes its factory as [$indexedDB].  Dexie itself is not
    part of the repository, so it enters the development as an interface
    ([DexieLib]); every method of the proxy is a computation in a state and
    exception monad over one Dexie handle.  The requests the proxy sends to
    the library ([close], [open], the versioning request, transactions and
    the methods of a table) are recorded in the order they are sent; reading
    the handle ([name], [verno], [tables], the lookup of a table) is not a
    request. *)

From Stdlib Require Import ZArith List String Ascii Lia DecimalString.
From stdpp Require Import base option list strings gmap.

Open Scope Z_scope.

(** ** JavaScript values, errors and promises *)

(** The values that travel through the proxy as records, keys and results.
    An object is the list of its enumerable properties in enumeration
    order; a string is UTF-8 text, as the messages of the proxy are. *)
#[warnings="-register-all"]
Inductive JsValue : Type :=
| JsUndefined
| JsNull
| JsBool (b : bool)
| JsNumber (n : Z)
| JsString (s : string)
| JsObject (props : list (string * JsValue))
| JsArray (elems : list JsValue).

(** [Array.isArray(v)] *)
Definition Array_isArray (v : JsValue) : bool :=
  match v with
  | JsArray _ => true
  | _ => false
  end.

(** The elements of an array. *)
Definition Array_elements (v : JsValue) : list JsValue :=
  match v with
  | JsArray elems => elems
  | _ => []
  end.

(** Decimal spelling of an array index or position, as JavaScript spells
    an integer property key. *)
Definition index_key (i : nat) : string :=
  NilZero.string_of_uint (Nat.to_uint i).

(** The UTF-16 code units a byte of UTF-8 text stands for: one for an ASCII
    byte and for the first byte of a sequence of two or three bytes, two (a
    surrogate pair) for the first byte of a sequence of four, none for a
    continuation byte. *)
Definition utf16_units (c : ascii) : nat :=
  let n := N_of_ascii c in
  if (n <? 128)%N then 1%nat
  else if (n <? 192)%N then 0%nat
  else if (n <? 240)%N then 1%nat
  else 2%nat.

(** [s.length] of a JavaScript string: the number of its UTF-16 code
    units. *)
Fixpoint utf16_length (s : string) : nat :=
  match s with
  | EmptyString => 0%nat
  | String c rest => (utf16_units c + utf16_length rest)%nat
  end.

(** The keys visited by [for (const key in v)]: the enumerable property
    names of an object, the indices of an array, the indices of the code
    units of a string, nothing for the other primitives. *)
Definition for_in_keys (v : JsValue) : list string :=
  match v with
  | JsObject props => map fst props
  | JsArray elems => map index_key (seq 0 (List.length elems))
  | JsString s => map index_key (seq 0 (utf16_length s))
  | _ => []
  end.

(** An [Error] instance: its [name] and its [message]. *)
Record JsError : Type := mkJsError {
  err_name : string;
  err_message : string
}.

(** [new Error(message)] *)
Definition new_Error (message : string) : JsError :=
  {| err_name := "Error"; err_message := message |}.

(** [String(error)], that is [Error.prototype.toString]. *)
Definition error_toString (e : JsError) : string :=
  if String.eqb (err_name e) "" then err_message e
  else if String.eqb (err_message e) "" then err_name e
  else err_name e +:+ ": " +:+ err_message e.

(** What a [throw] carries.  Dexie's [BulkError] also has [failuresByPos],
    the error of each failed position in the order [Object.entries]
    lists them; every other exception has none. *)
Record Exception : Type := mkException {
  exn_error : JsError;
  failuresByPos : list (nat * JsError)
}.

Definition exn_name (x : Exception) : string := err_name (exn_error x).
Definition exn_message (x : Exception) : string := err_message (exn_error x).

(** [throw new Error(message)] carries this value. *)
Definition Error_ (message : string) : Exception :=
  {| exn_error := new_Error message; failuresByPos := [] |}.

(** Outcome of a synchronous call. *)
Inductive Result (A : Type) : Type :=
| Return (a : A)
| Throw (x : Exception).
Arguments Return {A} a.
Arguments Throw {A} x.

(** Outcome of a promise once it has settled. *)
Inductive Promise (A : Type) : Type :=
| Resolved (a : A)
| Rejected (x : Exception).
Arguments Resolved {A} a.
Arguments Rejected {A} x.

#[global] Instance Result_ret : MRet Result := λ A a, Return a.
#[global] Instance Result_bind : MBind Result := λ A B f r,
  match r with
  | Return a => f a
  | Throw x => Throw x
  end.

(** [promise.catch(handler)]: a rejection is given to the handler, whose
    own outcome settles the promise. *)
Definition promise_catch {A} (p : Promise A) (handler : Exception → Result A)
  : Promise A :=
  match p with
  | Resolved a => Resolved a
  | Rejected x =>
      match handler x with
      | Return a => Resolved a
      | Throw x' => Rejected x'
      end
  end.

(** Dexie's [promise.catch(name, handler)]: only a rejection whose error
    has that name is given to the handler. *)
Definition promise_catch_named {A} (name : string) (p : Promise A)
    (handler : Exception → Result A) : Promise A :=
  match p with
  | Resolved a => Resolved a
  | Rejected x =>
      if String.eqb (exn_name x) name then promise_catch p handler else p
  end.

(** ** The parts of Dexie the proxy touches *)

(** Dexie's [IndexSpec]; the proxy reads its [name] only. *)
Record IndexSpec : Type := mkIndexSpec {
  idx_name : string
}.

(** Dexie's [TableSchema] (imported as [ITableSchema]): the primary key and
    the indexes by name, an object whose keys are the index names. *)
Record ITableSchema : Type := mkITableSchema {
  primKey : IndexSpec;
  idxByName : list (string * IndexSpec)
}.

(** Dexie's [Table]. *)
Record Table : Type := mkTable {
  table_name : string;
  schema : ITableSchema
}.

(** The parameter type [TableSchema] of ./type: table name to index
    definition, or to [null] (here [None]) to delete the table; the
    properties are kept in enumeration order. *)
Definition TableSchema : Type := list (string * option string).

(** [Object.keys(o)] of an object kept as its list of properties. *)
Definition Object_keys {V} (o : list (string * V)) : list string := map fst o.

(** [names.includes(key)] *)
Definition includes (names : list string) (key : string) : bool :=
  existsb (String.eqb key) names.

(** The methods of a Dexie [Table] the proxy calls, with their arguments. *)
Inductive TableOp : Type :=
| OpClear
| OpGet (option : JsValue)
| OpAdd (item : JsValue)
| OpUpdate (primaryKey : Z) (changes : JsValue)
| OpDelete (primaryKey : Z)
| OpBulkGet (primaryKeys : list Z)
| OpBulkAdd (items : list JsValue)
| OpBulkDelete (primaryKeys : list Z).

(** The library as the proxy sees it.  [Dexie] is the state of one database
    handle.  [dexie_table] is [db.table(name)], which throws for a name that
    is not registered; [dexie_version_stores n s] is the versioning request
    [db.version(n).stores(s)], which may throw; [dexie_transaction_begin]
    tells whether [db.transaction] can run its scope and
    [dexie_transaction_end] commits ([true]) or aborts; [table_request] is
    a method of a table, which may throw or return a promise.  The last
    fields say that [name] is a read-only property of a handle. *)
Class DexieLib : Type := {
  Dexie : Type;
  new_Dexie : string → Dexie;
  dexie_name : Dexie → string;
  dexie_verno : Dexie → Z;
  dexie_tables : Dexie → list Table;
  dexie_table : Dexie → string → Result Table;
  dexie_close : Dexie → Dexie;
  dexie_open : Dexie → Dexie;
  dexie_version_stores : Z → TableSchema → Dexie → Result unit * Dexie;
  dexie_transaction_begin : string → Table → Dexie → option Exception * Dexie;
  dexie_transaction_end : bool → Dexie → Dexie;
  table_request : Table → TableOp → Dexie → Result (Promise JsValue) * Dexie;
  name_new : ∀ database, dexie_name (new_Dexie database) = database;
  name_close : ∀ d, dexie_name (dexie_close d) = dexie_name d;
  name_open : ∀ d, dexie_name (dexie_open d) = dexie_name d;
  name_version_stores : ∀ n s d,
    dexie_name (dexie_version_stores n s d).2 = dexie_name d;
  name_transaction_begin : ∀ mode t d,
    dexie_name (dexie_transaction_begin mode t d).2 = dexie_name d;
  name_transaction_end : ∀ b d,
    dexie_name (dexie_transaction_end b d) = dexie_name d;
  name_table_request : ∀ t op d,
    dexie_name (table_request t op d).2 = dexie_name d
}.

(** A request of the proxy to the library, as recorded: [db.close()],
    [db.open()], [db.version(n).stores(schema)], [db.transaction(mode,
    table, ...)] and a method of the table of that name. *)
Inductive Call : Type :=
| CallClose
| CallOpen
| CallVersionStores (versionNumber : Z) (schema : TableSchema)
| CallTransaction (mode : string) (table : string)
| CallTable (table : string) (op : TableOp).

(** ** The proxy class (utils/indexed-db/index.ts) *)

Module IndexedDB.
Section Proxy.
Context `{L : DexieLib}.

(** The class has one private field, the Dexie handle. *)
Record IndexedDBProxy : Type := mkIndexedDBProxy {
  db : Dexie
}.

(** What a method runs against: the receiver [this] and the requests sent
    to the library so far. *)
Record World : Type := mkWorld {
  this : IndexedDBProxy;
  calls : list Call
}.

(** A method body: it may throw, and it may change the handle and send
    requests. *)
Definition M (A : Type) : Type := World → Result A * World.

#[global] Instance M_ret : MRet M := λ A a w, (Return a, w).
#[global] Instance M_bind : MBind M := λ A B f m w,
  match m w with
  | (Return a, w') => f a w'
  | (Throw x, w') => (Throw x, w')
  end.

Definition throw {A} (x : Exception) : M A := λ w, (Throw x, w).

(** [try { body } catch (err) { handler }] *)
Definition try_catch {A} (body : M A) (handler : Exception → M A) : M A :=
  λ w,
    match body w with
    | (Return a, w') => (Return a, w')
    | (Throw x, w') => handler x w'
    end.

(** [try { body } finally { cleanup }]: the cleanup runs on both exits and
    keeps the outcome of the body unless it throws itself. *)
Definition try_finally {A} (body : M A) (cleanup : M unit) : M A :=
  λ w,
    match body w with
    | (r, w') =>
        match cleanup w' with
        | (Return _, w'') => (r, w'')
        | (Throw x, w'') => (Throw x, w'')
        end
    end.

(** Reading the private field. *)
Definition this_db : M Dexie := λ w, (Return (db (this w)), w).

(** A synchronous outcome computed without touching the handle. *)
Definition lift {A} (r : Result A) : M A := λ w, (r, w).

(** One request to the library: it is recorded, and the handle moves to
    the state the library leaves it in. *)
Definition request {A} (c : Call) (f : Dexie → Result A * Dexie) : M A :=
  λ w,
    match f (db (this w)) with
    | (r, d') => (r, {| this := {| db := d' |}; calls := calls w ++ [c] |})
    end.

(** [for (const x of xs) { body }], in any monad. *)
Fixpoint for_of {T : Type → Type} `{MBind T, MRet T} {A}
    (xs : list A) (body : A → T unit) : T unit :=
  match xs with
  | [] => mret tt
  | x :: rest => body x ;; for_of rest body
  end.

(** [db.close()], [db.open()] (the promise it returns is dropped by the
    caller), [db.version(n).stores(s)] and a method of a table. *)
Definition db_close : M unit :=
  request CallClose (λ d, (Return tt, dexie_close d)).

Definition db_open : M unit :=
  request CallOpen (λ d, (Return tt, dexie_open d)).

Definition db_version_stores (versionNumber : Z) (s : TableSchema) : M unit :=
  request (CallVersionStores versionNumber s)
          (dexie_version_stores versionNumber s).

Definition table_call (t : Table) (op : TableOp) : M (Promise JsValue) :=
  request (CallTable (table_name t) op) (table_request t op).

(** [db.transaction(mode, table, scope)].  Dexie never throws here: when
    the transaction cannot start the promise is rejected; otherwise the
    scope runs, the promise settles as the scope's promise does, and a
    scope that throws or rejects aborts the transaction. *)
Definition db_transaction {A} (mode : string) (t : Table)
    (scope : M (Promise A)) : M (Promise A) :=
  λ w,
    match request (CallTransaction mode (table_name t))
            (λ d, match dexie_transaction_begin mode t d with
                  | (refused, d') => (Return refused, d')
                  end) w with
    | (Throw x, w1) => (Return (Rejected x), w1)
    | (Return (Some x), w1) => (Return (Rejected x), w1)
    | (Return None, w1) =>
        match scope w1 with
        | (Return (Resolved a), w2) =>
            (Return (Resolved a),
             {| this := {| db := dexie_transaction_end true (db (this w2)) |};
                calls := calls w2 |})
        | (Return (Rejected x), w2) | (Throw x, w2) =>
            (Return (Rejected x),
             {| this := {| db := dexie_transaction_end false (db (this w2)) |};
                calls := calls w2 |})
        end
    end.

(** [a || b] on numbers: [0] is the falsy one. *)
Definition number_or (a b : Z) : Z := if a =? 0 then b else a.

(** [constructor(database) { this.db = new Dexie(database); }] *)
Definition constructor (database : string) : IndexedDBProxy :=
  {| db := new_Dexie database |}.

Definition getDatabaseName : M string :=
  d ← this_db; mret (dexie_name d).

Definition getVersionNo : M Z :=
  d ← this_db; mret (dexie_verno d).

Definition createTable (tableSchema : TableSchema) : M unit :=
  verno ← getVersionNo;
  db_version_stores (number_or verno 1) tableSchema.

Definition getTable (tableName : string) : M Table :=
  try_catch
    (d ← this_db; lift (dexie_table d tableName))
    (λ error, throw (Error_ (tableName +:+ "은 유효하지 않은 테이블입니다."))).

Definition getTableSchema (tableName : string) : M ITableSchema :=
  t ← getTable tableName; mret (schema t).

Definition clearTable (tableName : string) : M unit :=
  t ← getTable tableName;
  table_call t OpClear ;;
  mret tt.

Definition dropTable (tableName : string) : M unit :=
  try_finally
    (try_catch
       (getTable tableName ;;
        currentVersion ← getVersionNo;
        db_close ;;
        db_version_stores (currentVersion + 1) [(tableName, None)])
       (λ err, throw (Error_ ("테이블을 삭제하는데 실패하였습니다. "
                               +:+ exn_message err))))
    db_open.

(** [validExistTable]: every table named in the schema is looked up. *)
Definition validExistTable (s : TableSchema) : M unit :=
  let tableNames := Object_keys s in
  for_of tableNames (λ tableName, getTable tableName ;; mret tt).

Definition updateTableSchema (s : TableSchema) : M unit :=
  try_catch
    (validExistTable s ;;
     currentVersion ← getVersionNo;
     db_close ;;
     db_version_stores (currentVersion + 1) s)
    (λ err, throw (Error_ ("스키마를 업데이트 하는데 실패하였습니다. "
                            +:+ exn_message err))).

Definition getTableList : M (list string) :=
  d ← this_db; mret (map table_name (dexie_tables d)).

Definition get (tableName : string) (option : JsValue) : M (Promise JsValue) :=
  try_catch
    (t ← getTable tableName; table_call t (OpGet option))
    (λ err, throw (Error_ ("데이터를 가져오는데 실패하였습니다. "
                            +:+ exn_message err))).

(** The callback of [liveQuery] is code of the caller.  It is given the
    table and can call its methods, each time going on with what the method
    answered, until it returns a promise or throws.  [calls] records the
    requests of the proxy, not those of the callback. *)
Inductive Query : Type :=
| Answer (r : Result (Promise JsValue))
| Ask (op : TableOp) (next : Result (Promise JsValue) → Query).

Definition QueryCallback : Type := Table → Query.

Fixpoint run_query (t : Table) (q : Query) : M (Promise JsValue) :=
  match q with
  | Answer r => lift r
  | Ask op next =>
      λ w,
        match table_request t op (db (this w)) with
        | (r, d') =>
            run_query t (next r) {| this := {| db := d' |}; calls := calls w |}
        end
  end.

Definition liveQuery (tableName : string) (queryCallback : QueryCallback)
  : M (Promise JsValue) :=
  table ← getTable tableName;
  run_query table (queryCallback table).

(** [validExistTableSchema]: the private check of the field names of the
    records against the schema of the table. *)
Definition validExistTableSchema (tableName : string) (checkData : JsValue)
  : M unit :=
  let records :=
    if negb (Array_isArray checkData) then [checkData]
    else Array_elements checkData in
  schema ← getTableSchema tableName;
  let primKey := idx_name (primKey schema) in
  let fieldNames := Object_keys (idxByName schema) ++ [primKey] in
  for_of records (λ record,
    for_of (for_in_keys record) (λ key,
      if negb (includes fieldNames key)
      then throw (Error_ (key +:+ "는 유효하지 않은 스키마입니다."))
      else mret tt)).

Definition add (tableName : string) (item : JsValue) : M (Promise JsValue) :=
  validExistTableSchema tableName item ;;
  t ← getTable tableName;
  p ← db_transaction "rw" t
        (t' ← getTable tableName; table_call t' (OpAdd item));
  mret (promise_catch p (λ err,
          Throw (Error_ ("등록하는데 실패하였습니다. " +:+ exn_message err)))).

Definition update (tableName : string) (primaryKey : Z) (changeData : JsValue)
  : M (Promise JsValue) :=
  validExistTableSchema tableName changeData ;;
  t ← getTable tableName;
  db_transaction "rw" t
    (t' ← getTable tableName; table_call t' (OpUpdate primaryKey changeData)).

Definition delete (tableName : string) (primaryKey : Z) : M (Promise JsValue) :=
  t ← getTable tableName;
  db_transaction "rw" t
    (t' ← getTable tableName; table_call t' (OpDelete primaryKey)).

Definition bulkGet (tableName : string) (primaryKeys : list Z)
  : M (Promise JsValue) :=
  t ← getTable tableName; table_call t (OpBulkGet primaryKeys).

(** The handler of [bulkAdd] for a [BulkError]: the loop over
    [Object.entries(err.failuresByPos)] throws in its first round. *)
Definition bulkAdd_handler (err : Exception) : Result JsValue :=
  for_of (failuresByPos err) (λ '(pos, error),
    Throw (Error_ ("작업 " +:+ index_key pos
                   +:+ " 실패하였고 해당 에러가 발생하였습니다. "
                   +:+ error_toString error))) ;;
  Return JsUndefined.

Definition bulkAdd (tableName : string) (items : list JsValue)
  : M (Promise JsValue) :=
  validExistTableSchema tableName (JsArray items) ;;
  t ← getTable tableName;
  db_transaction "rw" t
    (t' ← getTable tableName;
     p ← table_call t' (OpBulkAdd items);
     mret (promise_catch_named "BulkError" p bulkAdd_handler)).

Definition bulkDelete (tableName : string) (primaryKeys : list Z)
  : M (Promise JsValue) :=
  t ← getTable tableName;
  db_transaction "rw" t
    (t' ← getTable tableName; table_call t' (OpBulkDelete primaryKeys)).

(** Objects live in a heap; [new IndexedDBProxy(database)] allocates the
    next address, runs the constructor and returns the address. *)
Definition Heap : Type := list IndexedDBProxy.

Definition new_IndexedDBProxy (database : string) : Heap → nat * Heap :=
  λ h, (length h, h ++ [constructor database]).

Definition useIndexedDB (database : string) : Heap → nat * Heap :=
  new_IndexedDBProxy database.

End Proxy.
End IndexedDB.

(** ** The Vue plugin *)

Module VuePlugin.
Section Plugin.
Context `{L : DexieLib}.

(** A global property of the application: the factory the plugin installs,
    or any other value. *)
Inductive GlobalProperty : Type :=
| PropertyValue (v : JsValue)
| PropertyFactory (f : string → IndexedDB.Heap → nat * IndexedDB.Heap).

Record AppConfig : Type := mkAppConfig {
  globalProperties : gmap string GlobalProperty
}.

Record App : Type := mkApp {
  config : AppConfig
}.

(** [install(app)]: the assignment to
    [app.config.globalProperties.$indexedDB]. *)
Definition install (app : App) : App :=
  {| config :=
       {| globalProperties :=
            <["$indexedDB" :=
                PropertyFactory (λ dbName, IndexedDB.useIndexedDB dbName)]>
              (globalProperties (config app)) |} |}.

(** The variant of the plugin whose [install] also takes [_options] and
    ignores it. *)
Definition install_with_options (app : App) (_options : JsValue) : App :=
  {| config :=
       {| globalProperties :=
            <["$indexedDB" :=
                PropertyFactory (λ dbName, IndexedDB.useIndexedDB dbName)]>
              (globalProperties (config app)) |} |}.

End Plugin.
End VuePlugin.

(** ** A small library to run the proxy against

    An in-memory stand-in for Dexie: it keeps the name, the version number,
    the registered tables and whether the handle is open, refuses a new
    version while the handle is open, and answers [bulkAdd] with the
    failures it was told to report. *)

Module Stub.

Record State : Type := mkState {
  name : string;
  verno : Z;
  tables : list Table;
  is_open : bool;
  bulk_failures : list (nat * JsError)
}.

Definition new (database : string) : State :=
  {| name := database; verno := 0; tables := []; is_open := false;
     bulk_failures := [] |}.

Definition table (d : State) (tableName : string) : Result Table :=
  match find (λ t, String.eqb (table_name t) tableName) (tables d) with
  | Some t => Return t
  | None =>
      Throw {| exn_error :=
                 {| err_name := "InvalidTableError";
                    err_message := "Table " +:+ tableName +:+ " does not exist" |};
               failuresByPos := [] |}
  end.

Definition close (d : State) : State :=
  {| name := name d; verno := verno d; tables := tables d; is_open := false;
     bulk_failures := bulk_failures d |}.

Definition open (d : State) : State :=
  {| name := name d; verno := verno d; tables := tables d; is_open := true;
     bulk_failures := bulk_failures d |}.

Definition store (ts : list Table) (entry : string * option string)
  : list Table :=
  let others := filter (λ t, negb (String.eqb (table_name t) entry.1)) ts in
  match entry.2 with
  | None => others
  | Some definition =>
      others ++ [ {| table_name := entry.1;
                     schema := {| primKey := {| idx_name := definition |};
                                  idxByName := [] |} |} ]
  end.

Definition version_stores (n : Z) (s : TableSchema) (d : State)
  : Result unit * State :=
  (if is_open d
   then Throw {| exn_error :=
                   {| err_name := "SchemaError";
                      err_message := "Cannot add version when database is open" |};
                 failuresByPos := [] |}
   else Return tt,
   {| name := name d;
      verno := if is_open d then verno d else Z.max (verno d) n;
      tables := if is_open d then tables d else fold_left store s (tables d);
      is_open := is_open d;
      bulk_failures := bulk_failures d |}).

Definition transaction_begin (mode : string) (t : Table) (d : State)
  : option Exception * State := (None, d).

Definition transaction_end (commit : bool) (d : State) : State := d.

Definition table_op (t : Table) (op : TableOp) (d : State)
  : Result (Promise JsValue) * State :=
  (match op with
   | OpBulkAdd items =>
       match bulk_failures d with
       | [] => Return (Resolved (JsNumber (Z.of_nat (length items))))
       | failures =>
           Return (Rejected {| exn_error :=
                                 {| err_name := "BulkError";
                                    err_message := "bulkAdd(): some operations failed" |};
                               failuresByPos := failures |})
       end
   | _ => Return (Resolved JsUndefined)
   end, d).

Definition lib : DexieLib :=
  {| Dexie := State;
     new_Dexie := new;
     dexie_name := name;
     dexie_verno := verno;
     dexie_tables := tables;
     dexie_table := table;
     dexie_close := close;
     dexie_open := open;
     dexie_version_stores := version_stores;
     dexie_transaction_begin := transaction_begin;
     dexie_transaction_end := transaction_end;
     table_request := table_op;
     name_new := λ _, eq_refl;
     name_close := λ _, eq_refl;
     name_open := λ _, eq_refl;
     name_version_stores := λ _ _ _, eq_refl;
     name_transaction_begin := λ _ _ _, eq_refl;
     name_transaction_end := λ _ _, eq_refl;
     name_table_request := λ _ _ _, eq_refl |}.

End Stub.

(** ** Vocabulary of the statements *)

Section Vocabulary.
Context `{L : DexieLib}.
Import IndexedDB.

(** The records a call hands to the validator: the elements of an array,
    or the one value that is not an array. *)
Definition records_of (checkData : JsValue) : list JsValue :=
  match checkData with
  | JsArray elems => elems
  | _ => [checkData]
  end.

(** A field name is registered in a schema when it is the name of one of
    its indexes or the name of its primary key. *)
Definition registered_field (sch : ITableSchema) (key : string) : Prop :=
  In key (Object_keys (idxByName sch)) ∨ key = idx_name (primKey sch).

(** Some record of the data has a field name the schema does not know. *)
Definition has_unregistered_field (sch : ITableSchema) (checkData : JsValue)
  : Prop :=
  ∃ record key,
    In record (records_of checkData) ∧ In key (for_in_keys record)
    ∧ ¬ registered_field sch key.

(** Every field name of every record is registered. *)
Definition all_fields_registered (sch : ITableSchema) (checkData : JsValue)
  : Prop :=
  ∀ record key,
    In record (records_of checkData) → In key (for_in_keys record) →
    registered_field sch key.

(** The first field name, in the order the loops of the validator visit
    them, that the list of names does not include. *)
Definition first_unknown (fieldNames : list string) (records : list JsValue)
  : option string :=
  find (λ key, negb (includes fieldNames key))
       (concat (map for_in_keys records)).

(** The public methods as one type of calls, and the world a call leaves
    behind whatever its outcome. *)
Inductive PublicCall : Type :=
| CreateTable (tableSchema : TableSchema)
| GetDatabaseName
| GetVersionNo
| GetTable (tableName : string)
| GetTableSchema (tableName : string)
| ClearTable (tableName : string)
| DropTable (tableName : string)
| UpdateTableSchema (s : TableSchema)
| GetTableList
| Get (tableName : string) (option : JsValue)
| LiveQuery (tableName : string) (queryCallback : QueryCallback)
| Add (tableName : string) (item : JsValue)
| Update (tableName : string) (primaryKey : Z) (changeData : JsValue)
| Delete (tableName : string) (primaryKey : Z)
| BulkGet (tableName : string) (primaryKeys : list Z)
| BulkAdd (tableName : string) (items : list JsValue)
| BulkDelete (tableName : string) (primaryKeys : list Z).

Definition after {A} (m : M A) (w : World) : World := (m w).2.

Definition perform (c : PublicCall) : World → World :=
  match c with
  | CreateTable s => after (createTable s)
  | GetDatabaseName => after getDatabaseName
  | GetVersionNo => after getVersionNo
  | GetTable t => after (getTable t)
  | GetTableSchema t => after (getTableSchema t)
  | ClearTable t => after (clearTable t)
  | DropTable t => after (dropTable t)
  | UpdateTableSchema s => after (updateTableSchema s)
  | GetTableList => after getTableList
  | Get t o => after (get t o)
  | LiveQuery t cb => after (liveQuery t cb)
  | Add t item => after (add t item)
  | Update t k c => after (update t k c)
  | Delete t k => after (delete t k)
  | BulkGet t ks => after (bulkGet t ks)
  | BulkAdd t items => after (bulkAdd t items)
  | BulkDelete t ks => after (bulkDelete t ks)
  end.

(** A table name is registered when [db.table(name)] returns a table. *)
Definition registered (d : Dexie) (tableName : string) : bool :=
  match dexie_table d tableName with
  | Return _ => true
  | Throw _ => false
  end.

(** The world a method of the proxy starts in. *)
Definition world_of (d : Dexie) (log : list Call) : World :=
  {| this := {| db := d |}; calls := log |}.

(** A computation that never changes the name of the handle. *)
Definition keeps_name {A} (m : M A) : Prop :=
  ∀ w, dexie_name (db (this (m w).2)) = dexie_name (db (this w)).

End Vocabulary.

(** A database to try the proxy on: one table [users] with the primary key
    [id] and the indexes [name] and [age], at version 1. *)
Module Sample.

Definition users : Table :=
  {| table_name := "users";
     schema := {| primKey := {| idx_name := "id" |};
                  idxByName := [("name", {| idx_name := "name" |});
                                ("age", {| idx_name := "age" |})] |} |}.

Definition database : Stub.State :=
  {| Stub.name := "myDB"; Stub.verno := 1; Stub.tables := [users];
     Stub.is_open := true; Stub.bulk_failures := [] |}.

(** The same database when the second and the third record of a bulk
    insertion collide with stored keys. *)
Definition colliding : Stub.State :=
  {| Stub.name := "myDB"; Stub.verno := 1; Stub.tables := [users];
     Stub.is_open := true;
     Stub.bulk_failures :=
       [(1%nat, {| err_name := "ConstraintError";
                   err_message := "Key already exists in the object store." |});
        (2%nat, {| err_name := "ConstraintError";
                   err_message := "Key already exists in the object store." |})] |}.

Definition world : IndexedDB.World (L := Stub.lib) :=
  world_of (L := Stub.lib) database [].

Definition colliding_world : IndexedDB.World (L := Stub.lib) :=
  world_of (L := Stub.lib) colliding [].

Definition alice : JsValue :=
  JsObject [("name", JsString "alice"); ("age", JsNumber 30)].

Definition stray : JsValue :=
  JsObject [("name", JsString "bob"); ("email", JsString "b@x.y")].

End Sample.

(** ** More vocabulary: settled promises and the write methods *)

Section Outcomes.
Context `{L : DexieLib}.
Import IndexedDB.

(** The promise a transaction hands back for the outcome of its scope: the
    promise the scope returned, or a rejection with what the scope threw. *)
Definition settle {A} (r : Result (Promise A)) : Promise A :=
  match r with
  | Return p => p
  | Throw x => Rejected x
  end.

Definition resolved {A} (p : Promise A) : bool :=
  match p with
  | Resolved _ => true
  | Rejected _ => false
  end.

(** The five methods that write to a table. *)
Definition write_method (tableName : string) (m : M (Promise JsValue)) : Prop :=
  (∃ item, m = add tableName item)
  ∨ (∃ primaryKey changeData, m = update tableName primaryKey changeData)
  ∨ (∃ primaryKey, m = delete tableName primaryKey)
  ∨ (∃ items, m = bulkAdd tableName items)
  ∨ (∃ primaryKeys, m = bulkDelete tableName primaryKeys).

(** The field names the validator visits, record by record. *)
Definition field_names (checkData : JsValue) : list (list string) :=
  map for_in_keys (records_of checkData).

(** What a write does once its table [t] is found: it asks for a read-write
    transaction on [t]; if the transaction starts, it looks the table up
    again and calls the method [op] on it; [finish] is what the scope does
    to the promise of the method before the transaction sees it. *)
Definition transact (tableName : string) (t : Table) (op : TableOp)
    (finish : Promise JsValue → Promise JsValue) (w : World)
  : Result (Promise JsValue) * World :=
  let log := calls w ++ [CallTransaction "rw" (table_name t)] in
  match dexie_transaction_begin "rw" t (db (this w)) with
  | (Some x, d1) => (Return (Rejected x), world_of d1 log)
  | (None, d1) =>
      match dexie_table d1 tableName with
      | Throw _ =>
          (Return (Rejected (Error_ (tableName +:+ "은 유효하지 않은 테이블입니다."))),
           world_of (dexie_transaction_end false d1) log)
      | Return t' =>
          match table_request t' op d1 with
          | (r, d2) =>
              let p := match r with
                       | Return p => finish p
                       | Throw x => Rejected x
                       end in
              (Return p,
               world_of (dexie_transaction_end (resolved p) d2)
                        (log ++ [CallTable (table_name t') op]))
          end
      end
  end.

End Outcomes.

(** ** A library that answers as it is told

    A second stand-in for Dexie, for the paths on which the library
    fails: the handle carries the answer to give to the versioning request,
    to the start of a transaction and to each method of a table. *)

Module Scripted.

Record State : Type := mkState {
  name : string;
  verno : Z;
  tables : list Table;
  stores_answer : Result unit;
  begin_answer : option Exception;
  table_answer : TableOp → Result (Promise JsValue)
}.

Definition new (database : string) : State :=
  {| name := database; verno := 0; tables := [];
     stores_answer := Return tt; begin_answer := None;
     table_answer := λ _, Return (Resolved JsUndefined) |}.

Definition table (d : State) (tableName : string) : Result Table :=
  match find (λ t, String.eqb (table_name t) tableName) (tables d) with
  | Some t => Return t
  | None =>
      Throw {| exn_error :=
                 {| err_name := "InvalidTableError";
                    err_message := "Table " +:+ tableName +:+ " does not exist" |};
               failuresByPos := [] |}
  end.

Definition lib : DexieLib :=
  {| Dexie := State;
     new_Dexie := new;
     dexie_name := name;
     dexie_verno := verno;
     dexie_tables := tables;
     dexie_table := table;
     dexie_close := λ d, d;
     dexie_open := λ d, d;
     dexie_version_stores := λ _ _ d, (stores_answer d, d);
     dexie_transaction_begin := λ _ _ d, (begin_answer d, d);
     dexie_transaction_end := λ _ d, d;
     table_request := λ _ op d, (table_answer d op, d);
     name_new := λ _, eq_refl;
     name_close := λ _, eq_refl;
     name_open := λ _, eq_refl;
     name_version_stores := λ _ _ _, eq_refl;
     name_transaction_begin := λ _ _ _, eq_refl;
     name_transaction_end := λ _ _, eq_refl;
     name_table_request := λ _ _ _, eq_refl |}.

(** Errors the library is told to answer with. *)
Definition closed : Exception :=
  {| exn_error := {| err_name := "DatabaseClosedError";
                     err_message := "Database has been closed" |};
     failuresByPos := [] |}.

Definition constraint : Exception :=
  {| exn_error := {| err_name := "ConstraintError";
                     err_message := "Key already exists in the object store." |};
     failuresByPos := [] |}.

Definition bad_key : Exception :=
  {| exn_error := {| err_name := "DataError";
                     err_message := "The parameter is not a valid key." |};
     failuresByPos := [] |}.

Definition empty_bulk : Exception :=
  {| exn_error := {| err_name := "BulkError";
                     err_message := "bulkAdd(): 0 of 0 operations failed" |};
     failuresByPos := [] |}.

(** The sample table [users] at version 1, with the given answers. *)
Definition database (stores : Result unit) (begin : option Exception)
    (answer : TableOp → Result (Promise JsValue)) : State :=
  {| name := "myDB"; verno := 1; tables := [Sample.users];
     stores_answer := stores; begin_answer := begin; table_answer := answer |}.

Definition world (stores : Result unit) (begin : option Exception)
    (answer : TableOp → Result (Promise JsValue))
  : IndexedDB.World (L := lib) :=
  world_of (L := lib) (database stores begin answer) [].

End Scripted.

(** ** The build configuration (vite.config.ts) *)

Module ViteConfig.

(** [fileName: (format, fileName) => `${fileName}.${format}.js`] *)
Definition fileName (format entryName : string) : string :=
  entryName +:+ "." +:+ format +:+ ".js".

(** [formats: ["es", "umd"]] *)
Definition formats : list string := ["es"; "umd"].

End ViteConfig.

(** * Properties *)

Section Properties.
Context `{L : DexieLib}.
Import IndexedDB.

Ltac run :=
  unfold getTableSchema, getTable, getVersionNo, getDatabaseName, this_db,
    db_close, db_open, db_version_stores, table_call, request, lift, throw,
    try_catch, try_finally, after;
  unfold mbind, M_bind, mret, M_ret; simpl.

Lemma bind_run {A B} (m : M A) (f : A → M B) (w : World) :
  (m ≫= f) w
  = match m w with
    | (Return a, w') => f a w'
    | (Throw x, w') => (Throw x, w')
    end.
Proof. reflexivity. Qed.

Lemma ret_run {A} (a : A) (w : World) : (mret a : M A) w = (Return a, w).
Proof. reflexivity. Qed.

Lemma getTable_found (tableName : string) (t : Table) (w : World) :
  dexie_table (db (this w)) tableName = Return t →
  getTable tableName w = (Return t, w).
Proof. intros H. run. rewrite H. reflexivity. Qed.

Lemma getTable_missing (tableName : string) (w : World) :
  registered (db (this w)) tableName = false →
  getTable tableName w
  = (Throw (Error_ (tableName +:+ "은 유효하지 않은 테이블입니다.")), w).
Proof.
  unfold registered. intros H. run.
  destruct (dexie_table (db (this w)) tableName); [discriminate | reflexivity].
Qed.

Lemma registered_found (d : Dexie) (tableName : string) :
  registered d tableName = true → ∃ t, dexie_table d tableName = Return t.
Proof.
  unfold registered. destruct (dexie_table d tableName) as [t | x]; [eauto | discriminate].
Qed.

(** *** Lists of names *)

Lemma find_app_first {A} (f : A → bool) (l1 l2 : list A) :
  find f (l1 ++ l2)
  = match find f l1 with
    | Some x => Some x
    | None => find f l2
    end.
Proof.
  induction l1 as [| a l1 IH]; simpl; [reflexivity |].
  destruct (f a); [reflexivity | exact IH].
Qed.

Lemma includes_In (names : list string) (key : string) :
  includes names key = true ↔ In key names.
Proof.
  unfold includes. rewrite existsb_exists. split.
  - intros (x & Hx & Heq). apply String.eqb_eq in Heq. subst. exact Hx.
  - intros H. exists key. split; [exact H | apply String.eqb_refl].
Qed.

Lemma field_names_registered (sch : ITableSchema) (key : string) :
  In key (Object_keys (idxByName sch) ++ [idx_name (primKey sch)])
  ↔ registered_field sch key.
Proof.
  unfold registered_field. rewrite in_app_iff. simpl. intuition.
Qed.

Lemma prefix_append (p s : string) : String.prefix p (p +:+ s) = true.
Proof.
  induction p as [| c p IH]; simpl.
  - destruct s; reflexivity.
  - destruct (ascii_dec c c) as [_ | Hne]; [exact IH | contradiction].
Qed.

(** *** The loops of the two validators *)

Lemma check_keys_run (fieldNames keys : list string) (w : World) :
  for_of keys (λ key,
      if negb (includes fieldNames key)
      then throw (Error_ (key +:+ "는 유효하지 않은 스키마입니다."))
      else mret tt) w
  = match find (λ key, negb (includes fieldNames key)) keys with
    | Some key => (Throw (Error_ (key +:+ "는 유효하지 않은 스키마입니다.")), w)
    | None => (Return tt, w)
    end.
Proof.
  induction keys as [| key keys IH]; simpl; [reflexivity |].
  unfold mbind, M_bind.
  destruct (negb (includes fieldNames key)); [reflexivity |].
  unfold mret at 1, M_ret at 1. exact IH.
Qed.

Lemma check_records_run (fieldNames : list string) (records : list JsValue)
    (w : World) :
  for_of records (λ record,
      for_of (for_in_keys record) (λ key,
        if negb (includes fieldNames key)
        then throw (Error_ (key +:+ "는 유효하지 않은 스키마입니다."))
        else mret tt)) w
  = match first_unknown fieldNames records with
    | Some key => (Throw (Error_ (key +:+ "는 유효하지 않은 스키마입니다.")), w)
    | None => (Return tt, w)
    end.
Proof.
  unfold first_unknown.
  induction records as [| record records IH]; simpl; [reflexivity |].
  unfold mbind, M_bind. rewrite check_keys_run, find_app_first.
  destruct (find _ (for_in_keys record)); [reflexivity | exact IH].
Qed.

Lemma validExistTableSchema_run (tableName : string) (t : Table)
    (checkData : JsValue) (w : World) :
  dexie_table (db (this w)) tableName = Return t →
  validExistTableSchema tableName checkData w
  = match first_unknown
            (Object_keys (idxByName (schema t)) ++ [idx_name (primKey (schema t))])
            (records_of checkData) with
    | Some key => (Throw (Error_ (key +:+ "는 유효하지 않은 스키마입니다.")), w)
    | None => (Return tt, w)
    end.
Proof.
  intros H. unfold validExistTableSchema, getTableSchema.
  rewrite !bind_run, (getTable_found _ _ _ H), ret_run.
  replace (if negb (Array_isArray checkData) then [checkData]
           else Array_elements checkData)
    with (records_of checkData) by (destruct checkData; reflexivity).
  apply check_records_run.
Qed.

Lemma validExistTableSchema_missing (tableName : string)
    (checkData : JsValue) (w : World) :
  registered (db (this w)) tableName = false →
  validExistTableSchema tableName checkData w
  = (Throw (Error_ (tableName +:+ "은 유효하지 않은 테이블입니다.")), w).
Proof.
  intros H. unfold validExistTableSchema, getTableSchema.
  rewrite !bind_run, (getTable_missing _ _ H). reflexivity.
Qed.

Lemma first_unknown_Some (sch : ITableSchema) (checkData : JsValue)
    (key : string) :
  first_unknown (Object_keys (idxByName sch) ++ [idx_name (primKey sch)])
                (records_of checkData) = Some key →
  (∃ record, In record (records_of checkData) ∧ In key (for_in_keys record))
  ∧ ¬ registered_field sch key.
Proof.
  unfold first_unknown. intros H. apply find_some in H as [Hin Hneg].
  split.
  - apply in_concat in Hin as (keys & Hkeys & Hkey).
    apply in_map_iff in Hkeys as (record & <- & Hrecord). eauto.
  - intros Hreg. apply field_names_registered, includes_In in Hreg.
    rewrite Hreg in Hneg. discriminate.
Qed.

Lemma first_unknown_None (sch : ITableSchema) (checkData : JsValue) :
  first_unknown (Object_keys (idxByName sch) ++ [idx_name (primKey sch)])
                (records_of checkData) = None
  ↔ all_fields_registered sch checkData.
Proof.
  unfold first_unknown, all_fields_registered. split.
  - intros H record key Hrecord Hkey.
    apply field_names_registered, includes_In.
    assert (Hin : In key (concat (map for_in_keys (records_of checkData)))).
    { apply in_concat. exists (for_in_keys record).
      split; [apply in_map; exact Hrecord | exact Hkey]. }
    pose proof (find_none _ _ H key Hin) as Hneg. simpl in Hneg.
    destruct (includes _ key); [reflexivity | discriminate].
  - intros H.
    destruct (find _ _) as [key |] eqn:Hfind; [| reflexivity].
    apply first_unknown_Some in Hfind as [(record & Hrecord & Hkey) Hneg].
    exfalso. apply Hneg. exact (H record key Hrecord Hkey).
Qed.

(** *** Transactions *)

Lemma db_transaction_returns {A} (mode : string) (t : Table)
    (scope : M (Promise A)) (w : World) :
  ∃ p w', db_transaction mode t scope w = (Return p, w').
Proof.
  unfold db_transaction, request.
  destruct (dexie_transaction_begin mode t (db (this w))) as [[x |] d1];
    [eauto |].
  destruct (scope _) as [[[a | x] | x] w2]; eauto.
Qed.

Lemma validExistTableSchema_returns (tableName : string) (checkData : JsValue)
    (w w' : World) (u : unit) :
  validExistTableSchema tableName checkData w = (Return u, w') →
  w' = w ∧ ∃ t, dexie_table (db (this w)) tableName = Return t.
Proof.
  intros H.
  destruct (registered (db (this w)) tableName) eqn:Hreg.
  - apply registered_found in Hreg as [t Ht].
    rewrite (validExistTableSchema_run _ _ _ _ Ht) in H.
    destruct (first_unknown _ _); inversion H; subst. split; [reflexivity | eauto].
  - rewrite (validExistTableSchema_missing _ _ _ Hreg) in H. discriminate.
Qed.

Lemma add_throws (tableName : string) (item : JsValue) (w : World)
    (x : Exception) :
  (add tableName item w).1 = Throw x
  ↔ (validExistTableSchema tableName item w).1 = Throw x.
Proof.
  unfold add. rewrite bind_run.
  destruct (validExistTableSchema tableName item w) as [[u | x'] w'] eqn:Hv;
    [| simpl; split; intros H; inversion H; reflexivity].
  apply validExistTableSchema_returns in Hv as [-> [t Ht]].
  rewrite bind_run, (getTable_found _ _ _ Ht), bind_run.
  destruct (db_transaction_returns "rw" t
              (getTable tableName ≫= λ t', table_call t' (OpAdd item)) w)
    as (p & w' & ->).
  simpl. split; discriminate.
Qed.

Lemma bulkAdd_throws (tableName : string) (items : list JsValue) (w : World)
    (x : Exception) :
  (bulkAdd tableName items w).1 = Throw x
  ↔ (validExistTableSchema tableName (JsArray items) w).1 = Throw x.
Proof.
  unfold bulkAdd. rewrite bind_run.
  destruct (validExistTableSchema tableName (JsArray items) w)
    as [[u | x'] w'] eqn:Hv;
    [| simpl; split; intros H; inversion H; reflexivity].
  apply validExistTableSchema_returns in Hv as [-> [t Ht]].
  rewrite bind_run, (getTable_found _ _ _ Ht).
  match goal with
  | |- context [db_transaction ?mode ?t ?scope ?w] =>
      destruct (db_transaction_returns mode t scope w) as (p & w' & ->)
  end.
  simpl. split; discriminate.
Qed.

(** *** Unknown tables *)

(** C6: for a table name that is not registered, [getTable] throws the
    error "<tableName>은 유효하지 않은 테이블입니다." and so does every public
    method that resolves the table by name ([get] wraps the message in its
    own); none of them sends a request to the library. *)
Theorem unknown_table_fails (tableName : string) (w : World) :
  registered (db (this w)) tableName = false →
  let invalid := tableName +:+ "은 유효하지 않은 테이블입니다." in
  getTable tableName w = (Throw (Error_ invalid), w)
  ∧ getTableSchema tableName w = (Throw (Error_ invalid), w)
  ∧ clearTable tableName w = (Throw (Error_ invalid), w)
  ∧ (∀ option,
       get tableName option w
       = (Throw (Error_ ("데이터를 가져오는데 실패하였습니다. " +:+ invalid)), w))
  ∧ (∀ queryCallback,
       liveQuery tableName queryCallback w = (Throw (Error_ invalid), w))
  ∧ (∀ item, add tableName item w = (Throw (Error_ invalid), w))
  ∧ (∀ primaryKey changeData,
       update tableName primaryKey changeData w = (Throw (Error_ invalid), w))
  ∧ (∀ primaryKey,
       delete tableName primaryKey w = (Throw (Error_ invalid), w))
  ∧ (∀ primaryKeys,
       bulkGet tableName primaryKeys w = (Throw (Error_ invalid), w))
  ∧ (∀ items, bulkAdd tableName items w = (Throw (Error_ invalid), w))
  ∧ (∀ primaryKeys,
       bulkDelete tableName primaryKeys w = (Throw (Error_ invalid), w)).
Proof.
  intros Hreg invalid. subst invalid.
  pose proof (getTable_missing _ _ Hreg) as Hget.
  repeat split; intros;
    unfold getTableSchema, clearTable, get, liveQuery, add, update, delete,
      bulkGet, bulkAdd, bulkDelete, try_catch;
    rewrite ?bind_run, ?(validExistTableSchema_missing _ _ _ Hreg), ?Hget;
    reflexivity.
Qed.

(** *** Validation of field names *)

(** C1: on a registered table, when some record handed to [add], [update]
    or [bulkAdd] has a field name that is neither an index name nor the
    name of the primary key, the call throws
    "<key>는 유효하지 않은 스키마입니다." for such a key and the library has
    received nothing (the world is the one the call started in); when every
    field name of every record is registered, the validation returns. *)
Theorem validation_guards_writes (tableName : string) (t : Table) (w : World) :
  dexie_table (db (this w)) tableName = Return t →
  (∀ checkData,
     has_unregistered_field (schema t) checkData →
     ∃ key,
       (∃ record,
          In record (records_of checkData) ∧ In key (for_in_keys record))
       ∧ ¬ registered_field (schema t) key
       ∧ let invalid := Error_ (key +:+ "는 유효하지 않은 스키마입니다.") in
         validExistTableSchema tableName checkData w = (Throw invalid, w)
         ∧ add tableName checkData w = (Throw invalid, w)
         ∧ (∀ primaryKey,
              update tableName primaryKey checkData w = (Throw invalid, w))
         ∧ (∀ items,
              checkData = JsArray items →
              bulkAdd tableName items w = (Throw invalid, w)))
  ∧ (∀ checkData,
       all_fields_registered (schema t) checkData →
       validExistTableSchema tableName checkData w = (Return tt, w)).
Proof.
  intros Ht. split; intros checkData Hdata.
  - pose proof (validExistTableSchema_run _ _ checkData _ Ht) as Hrun.
    destruct (first_unknown _ (records_of checkData)) as [key |] eqn:Hfirst.
    + exists key. destruct (first_unknown_Some _ _ _ Hfirst) as [Hin Hneg].
      repeat split; try assumption.
      * unfold add. rewrite bind_run, Hrun. reflexivity.
      * intros primaryKey. unfold update. rewrite bind_run, Hrun. reflexivity.
      * intros items ->. unfold bulkAdd. rewrite bind_run, Hrun. reflexivity.
    + apply first_unknown_None in Hfirst.
      destruct Hdata as (record & key & Hrecord & Hkey & Hneg).
      exfalso. apply Hneg. exact (Hfirst record key Hrecord Hkey).
  - rewrite (validExistTableSchema_run _ _ _ _ Ht).
    apply first_unknown_None in Hdata. rewrite Hdata. reflexivity.
Qed.

(** C8: for a value [x] that is not an array, the validation [add] runs
    on [x] is the validation [bulkAdd] runs on the one-element list [[x]];
    so [add] throws on [x] exactly when [bulkAdd] throws on [[x]], with the
    same error. *)
Theorem add_validates_as_bulkAdd (tableName : string) (x : JsValue) :
  Array_isArray x = false →
  validExistTableSchema tableName x
  = validExistTableSchema tableName (JsArray [x])
  ∧ ∀ w error,
      (add tableName x w).1 = Throw error
      ↔ (bulkAdd tableName [x] w).1 = Throw error.
Proof.
  intros Hx.
  assert (Heq : validExistTableSchema tableName x
                = validExistTableSchema tableName (JsArray [x])).
  { destruct x; try reflexivity. discriminate. }
  split; [exact Heq |].
  intros w error. rewrite add_throws, bulkAdd_throws, Heq. reflexivity.
Qed.

(** *** Versioning: createTable, dropTable, updateTableSchema *)

(** C3: [createTable] sends the schema it was given, as it is, to the
    versioning API, at the current version number when there is one (it is
    not 0) and at version 1 otherwise; the number is not incremented. *)
Theorem createTable_passes_schema (tableSchema : TableSchema) (w : World) :
  let d := db (this w) in
  let n := if dexie_verno d =? 0 then 1 else dexie_verno d in
  createTable tableSchema w
  = ((dexie_version_stores n tableSchema d).1,
     world_of (dexie_version_stores n tableSchema d).2
              (calls w ++ [CallVersionStores n tableSchema]))
  ∧ (dexie_verno d ≠ 0 → n = dexie_verno d)
  ∧ (dexie_verno d = 0 → n = 1).
Proof.
  intros d n. split; [| split].
  - unfold createTable. run. unfold number_or. fold d. fold n.
    destruct (dexie_version_stores n tableSchema d) as [r d']. reflexivity.
  - intros Hv. subst n. apply Z.eqb_neq in Hv. rewrite Hv. reflexivity.
  - intros Hv. subst n. rewrite Hv. reflexivity.
Qed.

Lemma dropTable_registered (tableName : string) (t : Table) (w : World) :
  dexie_table (db (this w)) tableName = Return t →
  let d := db (this w) in
  let next := dexie_verno d + 1 in
  let answer := dexie_version_stores next [(tableName, None)] (dexie_close d) in
  dropTable tableName w
  = (match answer.1 with
     | Return u => Return u
     | Throw x =>
         Throw (Error_ ("테이블을 삭제하는데 실패하였습니다. " +:+ exn_message x))
     end,
     world_of (dexie_open answer.2)
              (calls w ++ [CallClose;
                           CallVersionStores next [(tableName, None)];
                           CallOpen])).
Proof.
  intros Ht d next answer. subst answer next d.
  unfold dropTable, try_finally, try_catch.
  rewrite bind_run, (getTable_found _ _ _ Ht). run.
  destruct (dexie_version_stores _ _ _) as [[u | x] d']; simpl;
    rewrite <- !app_assoc; reflexivity.
Qed.

Lemma dropTable_unregistered (tableName : string) (w : World) :
  registered (db (this w)) tableName = false →
  dropTable tableName w
  = (Throw (Error_ ("테이블을 삭제하는데 실패하였습니다. "
                    +:+ tableName +:+ "은 유효하지 않은 테이블입니다.")),
     world_of (dexie_open (db (this w))) (calls w ++ [CallOpen])).
Proof.
  intros Hreg. unfold dropTable, try_finally, try_catch.
  rewrite bind_run, (getTable_missing _ _ Hreg). reflexivity.
Qed.

(** C2: for a registered table name [dropTable] closes the database, sends
    the schema that maps the name to [null] to the versioning API at the
    current version plus one, and reopens the database, in this order; for
    a name that is not registered it throws an error whose message begins
    with "테이블을 삭제하는데 실패하였습니다.". *)
Theorem dropTable_drops (tableName : string) (w : World) :
  let d := db (this w) in
  let next := dexie_verno d + 1 in
  (registered d tableName = true →
   after (dropTable tableName) w
   = world_of
       (dexie_open
          (dexie_version_stores next [(tableName, None)] (dexie_close d)).2)
       (calls w ++ [CallClose;
                    CallVersionStores next [(tableName, None)];
                    CallOpen]))
  ∧ (registered d tableName = false →
     ∃ error,
       (dropTable tableName w).1 = Throw error
       ∧ exn_message error
         = "테이블을 삭제하는데 실패하였습니다. "
           +:+ tableName +:+ "은 유효하지 않은 테이블입니다."
       ∧ String.prefix "테이블을 삭제하는데 실패하였습니다."
                       (exn_message error) = true).
Proof.
  intros d next. split; intros Hreg.
  - apply registered_found in Hreg as [t Ht].
    unfold after. rewrite (dropTable_registered _ _ _ Ht). reflexivity.
  - rewrite (dropTable_unregistered _ _ Hreg). eexists.
    split; [reflexivity |]. split; [reflexivity |].
    apply (prefix_append "테이블을 삭제하는데 실패하였습니다.").
Qed.

(** C9: whatever the exit of [dropTable] (it returns, the table is
    unknown, or the versioning request throws), the last request it has
    sent is [open()] and the handle is in the state [open()] leaves. *)
Theorem dropTable_always_reopens (tableName : string) (w : World) :
  ∃ d sent,
    after (dropTable tableName) w
    = world_of (dexie_open d) (calls w ++ sent ++ [CallOpen]).
Proof.
  destruct (registered (db (this w)) tableName) eqn:Hreg.
  - apply registered_found in Hreg as [t Ht].
    unfold after. rewrite (dropTable_registered _ _ _ Ht).
    eexists. eexists [_; _]. reflexivity.
  - unfold after. rewrite (dropTable_unregistered _ _ Hreg).
    eexists. exists []. reflexivity.
Qed.

Lemma validExistTable_run (s : TableSchema) (w : World) :
  validExistTable s w
  = match find (λ n, negb (registered (db (this w)) n)) (Object_keys s) with
    | Some tableName =>
        (Throw (Error_ (tableName +:+ "은 유효하지 않은 테이블입니다.")), w)
    | None => (Return tt, w)
    end.
Proof.
  unfold validExistTable.
  induction (Object_keys s) as [| n names IH]; simpl; [reflexivity |].
  rewrite !bind_run.
  destruct (registered (db (this w)) n) eqn:Hreg; simpl.
  - apply registered_found in Hreg as [t Ht].
    rewrite (getTable_found _ _ _ Ht), ret_run. exact IH.
  - rewrite (getTable_missing _ _ Hreg). reflexivity.
Qed.

Lemma updateTableSchema_run (s : TableSchema) (w : World) :
  let d := db (this w) in
  let next := dexie_verno d + 1 in
  let answer := dexie_version_stores next s (dexie_close d) in
  updateTableSchema s w
  = match find (λ n, negb (registered d n)) (Object_keys s) with
    | Some tableName =>
        (Throw (Error_ ("스키마를 업데이트 하는데 실패하였습니다. "
                        +:+ tableName +:+ "은 유효하지 않은 테이블입니다.")), w)
    | None =>
        (match answer.1 with
         | Return u => Return u
         | Throw x =>
             Throw (Error_ ("스키마를 업데이트 하는데 실패하였습니다. "
                            +:+ exn_message x))
         end,
         world_of answer.2 (calls w ++ [CallClose; CallVersionStores next s]))
    end.
Proof.
  intros d next answer. subst answer next d.
  unfold updateTableSchema, try_catch.
  rewrite bind_run, validExistTable_run.
  destruct (find _ (Object_keys s)); [reflexivity |]. run.
  destruct (dexie_version_stores _ _ _) as [[u | x] d']; simpl;
    rewrite <- !app_assoc; reflexivity.
Qed.

(** C4: [updateTableSchema] first looks up every table name of the
    mapping: if one is unknown it throws without having sent anything;
    when all exist it closes the database and sends the mapping to the
    versioning API at the current version plus one; whatever fails, the
    error it throws has a message that begins with
    "스키마를 업데이트 하는데 실패하였습니다.". *)
Theorem updateTableSchema_checks_then_migrates (s : TableSchema) (w : World) :
  let d := db (this w) in
  let next := dexie_verno d + 1 in
  let answer := dexie_version_stores next s (dexie_close d) in
  (Exists (λ n, registered d n = false) (Object_keys s) →
   ∃ tableName,
     In tableName (Object_keys s) ∧ registered d tableName = false
     ∧ updateTableSchema s w
       = (Throw (Error_ ("스키마를 업데이트 하는데 실패하였습니다. "
                         +:+ tableName +:+ "은 유효하지 않은 테이블입니다.")), w))
  ∧ (Forall (λ n, registered d n = true) (Object_keys s) →
     after (updateTableSchema s) w
     = world_of answer.2 (calls w ++ [CallClose; CallVersionStores next s])
     ∧ (updateTableSchema s w).1
       = match answer.1 with
         | Return u => Return u
         | Throw x =>
             Throw (Error_ ("스키마를 업데이트 하는데 실패하였습니다. "
                            +:+ exn_message x))
         end)
  ∧ (∀ error,
       (updateTableSchema s w).1 = Throw error →
       String.prefix "스키마를 업데이트 하는데 실패하였습니다."
                     (exn_message error) = true).
Proof.
  intros d next answer.
  pose proof (updateTableSchema_run s w) as Hrun. simpl in Hrun.
  fold d in Hrun. fold next in Hrun. fold answer in Hrun.
  split; [| split].
  - intros Hex.
    destruct (find _ (Object_keys s)) as [tableName |] eqn:Hfind.
    + apply find_some in Hfind as [Hin Hneg]. exists tableName.
      split; [exact Hin |]. split; [| exact Hrun].
      destruct (registered d tableName); [discriminate | reflexivity].
    + exfalso. apply List.Exists_exists in Hex as (n & Hin & Hn).
      pose proof (find_none _ _ Hfind n Hin) as Hneg. simpl in Hneg.
      rewrite Hn in Hneg. discriminate.
  - intros Hall.
    destruct (find _ (Object_keys s)) as [tableName |] eqn:Hfind.
    + exfalso. apply find_some in Hfind as [Hin Hneg].
      rewrite List.Forall_forall in Hall. rewrite (Hall _ Hin) in Hneg.
      discriminate.
    + unfold after. rewrite Hrun. split; reflexivity.
  - intros error Herr. rewrite Hrun in Herr.
    destruct (find _ (Object_keys s)) as [tableName |]; simpl in Herr.
    + inversion Herr.
      apply (prefix_append "스키마를 업데이트 하는데 실패하였습니다.").
    + destruct (answer.1) as [u | x]; inversion Herr.
      apply (prefix_append "스키마를 업데이트 하는데 실패하였습니다.").
Qed.

(** *** Bulk insertion *)

(** C7: when the bulk insertion wrapped by [bulkAdd] is rejected with a
    [BulkError] that reports failed positions, the handler throws
    "작업 <pos> 실패하였고 해당 에러가 발생하였습니다. <error>" for the first
    position reported, and the promise [bulkAdd] returns is rejected with
    that error instead of resolving to a last key. *)
Theorem bulkAdd_reports_failed_position
    (tableName : string) (items : list JsValue) (t t' : Table) (w : World)
    (d1 d2 : Dexie) (x : Exception) (pos : nat) (error : JsError)
    (others : list (nat * JsError)) :
  dexie_table (db (this w)) tableName = Return t →
  all_fields_registered (schema t) (JsArray items) →
  dexie_transaction_begin "rw" t (db (this w)) = (None, d1) →
  dexie_table d1 tableName = Return t' →
  table_request t' (OpBulkAdd items) d1 = (Return (Rejected x), d2) →
  exn_name x = "BulkError" →
  failuresByPos x = (pos, error) :: others →
  (bulkAdd tableName items w).1
  = Return (Rejected (Error_ ("작업 " +:+ index_key pos
                              +:+ " 실패하였고 해당 에러가 발생하였습니다. "
                              +:+ error_toString error))).
Proof.
  intros Ht Hvalid Hbegin Ht' Hbulk Hname Hfail.
  unfold bulkAdd.
  rewrite bind_run, (validExistTableSchema_run _ _ _ _ Ht).
  apply first_unknown_None in Hvalid. rewrite Hvalid.
  rewrite bind_run, (getTable_found _ _ _ Ht).
  unfold db_transaction, request at 1. rewrite Hbegin.
  rewrite !bind_run.
  rewrite (getTable_found tableName t'
             {| this := {| db := d1 |};
                calls := calls w ++ [CallTransaction "rw" (table_name t)] |} Ht').
  rewrite bind_run. unfold table_call, request. cbn [db this calls].
  rewrite Hbulk, ret_run.
  unfold promise_catch_named. rewrite Hname. cbn [String.eqb Ascii.eqb Bool.eqb].
  unfold promise_catch, bulkAdd_handler. rewrite Hfail. reflexivity.
Qed.

(** *** The name of the database *)

Create HintDb keeps.

Lemma keeps_ret {A} (a : A) : keeps_name (mret a : M A).
Proof. intros w. reflexivity. Qed.

Lemma keeps_throw {A} (x : Exception) : keeps_name (throw x : M A).
Proof. intros w. reflexivity. Qed.

Lemma keeps_lift {A} (r : Result A) : keeps_name (lift r).
Proof. intros w. reflexivity. Qed.

Lemma keeps_this_db : keeps_name this_db.
Proof. intros w. reflexivity. Qed.

Lemma keeps_bind {A B} (m : M A) (f : A → M B) :
  keeps_name m → (∀ a, keeps_name (f a)) → keeps_name (m ≫= f).
Proof.
  intros Hm Hf w. rewrite bind_run. specialize (Hm w).
  destruct (m w) as [[a | x] w']; simpl in *; [| exact Hm].
  rewrite (Hf a w'). exact Hm.
Qed.

Lemma keeps_if {A} (b : bool) (m1 m2 : M A) :
  keeps_name m1 → keeps_name m2 → keeps_name (if b then m1 else m2).
Proof. destruct b; auto. Qed.

Lemma keeps_try_catch {A} (body : M A) (handler : Exception → M A) :
  keeps_name body → (∀ x, keeps_name (handler x)) →
  keeps_name (try_catch body handler).
Proof.
  intros Hb Hh w. unfold try_catch. specialize (Hb w).
  destruct (body w) as [[a | x] w']; simpl in *; [exact Hb |].
  rewrite (Hh x w'). exact Hb.
Qed.

Lemma keeps_try_finally {A} (body : M A) (cleanup : M unit) :
  keeps_name body → keeps_name cleanup →
  keeps_name (try_finally body cleanup).
Proof.
  intros Hb Hc w. unfold try_finally. specialize (Hb w).
  destruct (body w) as [r w']; simpl in *. specialize (Hc w').
  destruct (cleanup w') as [[u | x] w'']; simpl in *; congruence.
Qed.

Lemma keeps_request {A} (c : Call) (f : Dexie → Result A * Dexie) :
  (∀ d, dexie_name (f d).2 = dexie_name d) → keeps_name (request c f).
Proof.
  intros Hf w. unfold request. specialize (Hf (db (this w))).
  destruct (f (db (this w))) as [r d']. exact Hf.
Qed.

Lemma keeps_for_of {A} (xs : list A) (body : A → M unit) :
  (∀ x, keeps_name (body x)) → keeps_name (for_of xs body).
Proof.
  intros Hbody. induction xs as [| x xs IH]; simpl.
  - apply keeps_ret.
  - apply keeps_bind; auto.
Qed.

Lemma keeps_db_close : keeps_name db_close.
Proof. apply keeps_request. intros d. apply name_close. Qed.

Lemma keeps_db_open : keeps_name db_open.
Proof. apply keeps_request. intros d. apply name_open. Qed.

Lemma keeps_db_version_stores (n : Z) (s : TableSchema) :
  keeps_name (db_version_stores n s).
Proof. apply keeps_request. intros d. apply name_version_stores. Qed.

Lemma keeps_table_call (t : Table) (op : TableOp) :
  keeps_name (table_call t op).
Proof. apply keeps_request. intros d. apply name_table_request. Qed.

Lemma keeps_db_transaction {A} (mode : string) (t : Table)
    (scope : M (Promise A)) :
  keeps_name scope → keeps_name (db_transaction mode t scope).
Proof.
  intros Hs w. unfold db_transaction, request.
  pose proof (name_transaction_begin mode t (db (this w))) as Hb.
  destruct (dexie_transaction_begin mode t (db (this w))) as [[x |] d1];
    simpl in *; [exact Hb |].
  match goal with |- context [scope ?w1] => specialize (Hs w1) end.
  destruct (scope _) as [[[a | x] | x] w2]; simpl in *;
    rewrite name_transaction_end; congruence.
Qed.

Lemma keeps_run_query (t : Table) (q : Query) : keeps_name (run_query t q).
Proof.
  induction q as [r | op next IH]; simpl.
  - apply keeps_lift.
  - intros w. pose proof (name_table_request t op (db (this w))) as Hr.
    destruct (table_request t op (db (this w))) as [r d']. simpl in Hr.
    rewrite (IH r). exact Hr.
Qed.

#[local] Hint Resolve keeps_ret keeps_throw keeps_lift keeps_this_db
  keeps_bind keeps_if keeps_try_catch keeps_try_finally keeps_for_of
  keeps_db_close keeps_db_open keeps_db_version_stores keeps_table_call
  keeps_db_transaction keeps_run_query : keeps.

Lemma keeps_getTable (tableName : string) : keeps_name (getTable tableName).
Proof. unfold getTable. auto with keeps. Qed.

#[local] Hint Resolve keeps_getTable : keeps.

Lemma keeps_validExistTableSchema (tableName : string) (checkData : JsValue) :
  keeps_name (validExistTableSchema tableName checkData).
Proof.
  unfold validExistTableSchema, getTableSchema. cbv zeta.
  auto 8 with keeps.
Qed.

#[local] Hint Resolve keeps_validExistTableSchema : keeps.

Lemma perform_keeps_name (c : PublicCall) (w : World) :
  dexie_name (db (this (perform c w))) = dexie_name (db (this w)).
Proof.
  assert (H : ∀ A (m : M A), keeps_name m → 
              dexie_name (db (this (after m w))) = dexie_name (db (this w))).
  { intros A m Hm. apply Hm. }
  destruct c; simpl; apply H;
    unfold createTable, getDatabaseName, getVersionNo, getTableSchema,
      clearTable, dropTable, updateTableSchema, validExistTable, getTableList,
      get, liveQuery, add, update, delete, bulkGet, bulkAdd, bulkDelete;
    auto 10 with keeps.
Qed.

(** C10: a proxy made by [useIndexedDB d] or [new IndexedDBProxy(d)]
    answers [d] to [getDatabaseName]; no public method changes what
    [getDatabaseName] answers, so the answer is still [d] after any
    sequence of public calls. *)
Theorem database_name_is_fixed :
  (∀ database h,
     ∃ p,
       useIndexedDB database h = (length h, h ++ [p])
       ∧ new_IndexedDBProxy database h = (length h, h ++ [p])
       ∧ (h ++ [p]) !! length h = Some p
       ∧ ∀ log, (getDatabaseName (mkWorld p log)).1 = Return database)
  ∧ (∀ (c : PublicCall) (w : World),
       (getDatabaseName (perform c w)).1 = (getDatabaseName w).1)
  ∧ (∀ database log (cs : list PublicCall),
       (getDatabaseName
          (fold_left (λ w c, perform c w) cs
                     (mkWorld (constructor database) log))).1
       = Return database).
Proof.
  assert (Hstep : ∀ (c : PublicCall) (w : World),
            (getDatabaseName (perform c w)).1 = (getDatabaseName w).1).
  { intros c w. run. rewrite perform_keeps_name. reflexivity. }
  split; [| split].
  - intros database h. exists (constructor database).
    repeat split.
    + apply list_lookup_middle. reflexivity.
    + intros log. run. rewrite name_new. reflexivity.
  - exact Hstep.
  - intros database log cs.
    assert (H : ∀ w, (getDatabaseName (fold_left (λ w c, perform c w) cs w)).1
                     = (getDatabaseName w).1).
    { induction cs as [| c cs IH]; intros w; cbn [fold_left]; [reflexivity |].
      rewrite IH. apply Hstep. }
    rewrite H. run. rewrite name_new. reflexivity.
Qed.

End Properties.

(** *** The plugin *)

Section PluginProperties.
Context `{L : DexieLib}.
Import IndexedDB VuePlugin.

(** C5: after [install], the global property [$indexedDB] is a function
    that returns, for every [dbName], what [useIndexedDB dbName] returns:
    the address of a proxy that did not exist before, built by the
    constructor over a handle whose name is [dbName].  The variant of
    [install] that takes options installs the same. *)
Theorem plugin_installs_factory (app : App) :
  (∃ f,
     globalProperties (config (install app)) !! "$indexedDB"
     = Some (PropertyFactory f)
     ∧ ∀ dbName h,
         f dbName h = useIndexedDB dbName h
         ∧ ∃ p,
             f dbName h = (length h, h ++ [p])
             ∧ h !! length h = None
             ∧ (h ++ [p]) !! length h = Some p
             ∧ p = constructor dbName
             ∧ (∀ log, (getDatabaseName (mkWorld p log)).1 = Return dbName))
  ∧ ∀ options, install_with_options app options = install app.
Proof.
  split; [| reflexivity].
  eexists. split.
  - unfold install. simpl. apply lookup_insert_eq.
  - intros dbName h. split; [reflexivity |].
    exists (constructor dbName). repeat split.
    + apply lookup_ge_None_2. lia.
    + apply list_lookup_middle. reflexivity.
    + intros log. unfold getDatabaseName, this_db.
      unfold mbind, M_bind, mret, M_ret. simpl. rewrite name_new. reflexivity.
Qed.

End PluginProperties.

(** * The properties on the sample database *)

Section Instances.
Import IndexedDB.
#[local] Existing Instance Stub.lib.

(** [dropTable] on the registered table, step by step. *)
Example dropTable_users :
  dropTable "users" Sample.world
  = (Return tt,
     world_of (L := Stub.lib)
       {| Stub.name := "myDB"; Stub.verno := 2; Stub.tables := [];
          Stub.is_open := true; Stub.bulk_failures := [] |}
       [CallClose; CallVersionStores 2 [("users", None)]; CallOpen]).
Proof. reflexivity. Qed.

(** [createTable] on a fresh handle asks for version 1. *)
Example createTable_fresh :
  calls (after (createTable [("users", Some "++id,name,age")])
               (mkWorld (constructor "myDB") []))
  = [CallVersionStores 1 [("users", Some "++id,name,age")]].
Proof. reflexivity. Qed.

(** [createTable] on the open sample database asks for version 1 again,
    which the library refuses. *)
Example createTable_while_open :
  createTable [("orders", Some "++id")] Sample.world
  = (Throw {| exn_error :=
                {| err_name := "SchemaError";
                   err_message := "Cannot add version when database is open" |};
              failuresByPos := [] |},
     world_of (L := Stub.lib) Sample.database
              [CallVersionStores 1 [("orders", Some "++id")]]).
Proof. reflexivity. Qed.

(** A record that is itself an array is validated element by element. *)
Example add_array_item :
  (validExistTableSchema "users" (JsArray [Sample.alice]) Sample.world).1
  = Return tt.
Proof. reflexivity. Qed.

(** [orders] is not a table of the sample database. *)
Lemma unknown_table_fails_witness :
  registered (db (this Sample.world)) "orders" = false
  ∧ getTable "orders" Sample.world
    = (Throw (Error_ "orders은 유효하지 않은 테이블입니다."), Sample.world)
  ∧ bulkDelete "orders" [1; 2] Sample.world
    = (Throw (Error_ "orders은 유효하지 않은 테이블입니다."), Sample.world).
Proof.
  assert (Hreg : registered (db (this Sample.world)) "orders" = false)
    by reflexivity.
  pose proof (unknown_table_fails "orders" Sample.world Hreg) as H.
  cbv zeta in H.
  destruct H as (Hget & _ & _ & _ & _ & _ & _ & _ & _ & _ & Hdel).
  split; [exact Hreg |]. split; [exact Hget | exact (Hdel [1; 2])].
Defined.

(** [stray] has the field [email], which [users] does not index; [alice]
    has registered fields only. *)
Lemma validation_guards_writes_witness :
  dexie_table (db (this Sample.world)) "users" = Return Sample.users
  ∧ has_unregistered_field (schema Sample.users) Sample.stray
  ∧ all_fields_registered (schema Sample.users) Sample.alice
  ∧ (∃ key,
       add "users" Sample.stray Sample.world
       = (Throw (Error_ (key +:+ "는 유효하지 않은 스키마입니다.")), Sample.world))
  ∧ validExistTableSchema "users" Sample.alice Sample.world
    = (Return tt, Sample.world).
Proof.
  assert (Ht : dexie_table (db (this Sample.world)) "users"
               = Return Sample.users) by reflexivity.
  assert (Hbad : has_unregistered_field (schema Sample.users) Sample.stray).
  { exists Sample.stray, "email". simpl. split; [auto |]. split; [auto |].
    unfold registered_field. simpl.
    intros [[H | [H | []]] | H]; discriminate. }
  assert (Hgood : all_fields_registered (schema Sample.users) Sample.alice).
  { intros record key [<- | []] Hkey. unfold registered_field. simpl in *.
    destruct Hkey as [<- | [<- | []]]; auto. }
  destruct (validation_guards_writes "users" Sample.users Sample.world Ht)
    as [Hthrows Hpasses].
  split; [exact Ht |]. split; [exact Hbad |]. split; [exact Hgood |]. split.
  - destruct (Hthrows Sample.stray Hbad) as (key & _ & _ & H).
    cbv zeta in H. destruct H as (_ & Hadd & _).
    exists key. exact Hadd.
  - exact (Hpasses Sample.alice Hgood).
Defined.

(** [alice] is an object, not an array. *)
Lemma add_validates_as_bulkAdd_witness :
  Array_isArray Sample.alice = false
  ∧ validExistTableSchema (L := Stub.lib) "users" Sample.alice
    = validExistTableSchema "users" (JsArray [Sample.alice]).
Proof.
  split; [reflexivity |].
  exact (proj1 (add_validates_as_bulkAdd "users" Sample.alice eq_refl)).
Defined.

(** Dropping [users], which is registered, and [orders], which is not. *)
Lemma dropTable_drops_witness :
  registered (db (this Sample.world)) "users" = true
  ∧ registered (db (this Sample.world)) "orders" = false
  ∧ calls (after (dropTable "users") Sample.world)
    = [CallClose; CallVersionStores 2 [("users", None)]; CallOpen]
  ∧ ∃ error,
      (dropTable "orders" Sample.world).1 = Throw error
      ∧ String.prefix "테이블을 삭제하는데 실패하였습니다." (exn_message error)
        = true.
Proof.
  pose proof (dropTable_drops "users" Sample.world) as Hu.
  pose proof (dropTable_drops "orders" Sample.world) as Ho.
  cbv zeta in Hu, Ho.
  destruct Hu as [Hu _]. destruct Ho as [_ Ho].
  split; [reflexivity |]. split; [reflexivity |]. split.
  - rewrite (Hu eq_refl). reflexivity.
  - destruct (Ho eq_refl) as (error & Hthrow & _ & Hprefix).
    exists error. split; assumption.
Defined.

(** A mapping over [users] alone, and one that also names [orders]. *)
Lemma updateTableSchema_checks_then_migrates_witness :
  Forall (λ n, registered (db (this Sample.world)) n = true)
         (Object_keys [("users", Some "++id,name")])
  ∧ Exists (λ n, registered (db (this Sample.world)) n = false)
           (Object_keys [("users", Some "++id,name"); ("orders", None)])
  ∧ calls (after (updateTableSchema [("users", Some "++id,name")]) Sample.world)
    = [CallClose; CallVersionStores 2 [("users", Some "++id,name")]]
  ∧ ∃ tableName,
      updateTableSchema [("users", Some "++id,name"); ("orders", None)]
                        Sample.world
      = (Throw (Error_ ("스키마를 업데이트 하는데 실패하였습니다. "
                        +:+ tableName +:+ "은 유효하지 않은 테이블입니다.")),
         Sample.world).
Proof.
  assert (Hall : Forall (λ n, registered (db (this Sample.world)) n = true)
                        (Object_keys [("users", Some "++id,name")])).
  { repeat constructor. }
  assert (Hex : Exists (λ n, registered (db (this Sample.world)) n = false)
                  (Object_keys [("users", Some "++id,name"); ("orders", None)])).
  { apply Exists_cons_tl. apply Exists_cons_hd. reflexivity. }
  pose proof (updateTableSchema_checks_then_migrates
                [("users", Some "++id,name")] Sample.world) as Hok.
  pose proof (updateTableSchema_checks_then_migrates
                [("users", Some "++id,name"); ("orders", None)] Sample.world)
    as Hko.
  cbv zeta in Hok, Hko.
  destruct Hok as (_ & Hok & _). destruct Hko as (Hko & _).
  split; [exact Hall |]. split; [exact Hex |]. split.
  - rewrite (proj1 (Hok Hall)). reflexivity.
  - destruct (Hko Hex) as (tableName & _ & _ & Hthrow).
    exists tableName. exact Hthrow.
Defined.

(** Three records of which the second and the third collide: the error
    names position 1. *)
Lemma bulkAdd_reports_failed_position_witness :
  (bulkAdd "users" [Sample.alice; Sample.alice; Sample.alice]
           Sample.colliding_world).1
  = Return (Rejected (Error_ "작업 1 실패하였고 해당 에러가 발생하였습니다. ConstraintError: Key already exists in the object store.")).
Proof.
  apply (bulkAdd_reports_failed_position
           "users" [Sample.alice; Sample.alice; Sample.alice]
           Sample.users Sample.users Sample.colliding_world
           Sample.colliding Sample.colliding
           {| exn_error :=
                {| err_name := "BulkError";
                   err_message := "bulkAdd(): some operations failed" |};
              failuresByPos := Stub.bulk_failures Sample.colliding |}
           1%nat
           {| err_name := "ConstraintError";
              err_message := "Key already exists in the object store." |}
           [(2%nat, {| err_name := "ConstraintError";
                       err_message := "Key already exists in the object store." |})]);
    try reflexivity.
  intros record key Hrecord Hkey. unfold registered_field. simpl in *.
  destruct Hrecord as [<- | [<- | [<- | []]]];
    simpl in Hkey; destruct Hkey as [<- | [<- | []]]; auto.
Defined.

(** The stand-in library has a read-only name, so the name of the sample
    database survives dropping its table and querying it. *)
Lemma database_name_is_fixed_witness :
  (getDatabaseName
     (fold_left (λ w c, perform c w)
        [DropTable "users";
         LiveQuery "users" (λ _, Ask OpClear (λ r, Answer r));
         CreateTable [("orders", Some "++id")]]
        (mkWorld (constructor "myDB") []))).1
  = Return "myDB".
Proof.
  exact (proj2 (proj2 (database_name_is_fixed (L := Stub.lib))) "myDB" []
           [DropTable "users";
            LiveQuery "users" (λ _, Ask OpClear (λ r, Answer r));
            CreateTable [("orders", Some "++id")]]).
Defined.

(** Installing the plugin into an application without global properties
    leaves the factory under [$indexedDB]. *)
Lemma plugin_installs_factory_witness :
  ∃ f,
    VuePlugin.globalProperties
      (VuePlugin.config
         (VuePlugin.install
            (VuePlugin.mkApp (VuePlugin.mkAppConfig ∅))))
      !! "$indexedDB"
    = Some (VuePlugin.PropertyFactory f)
    ∧ f "myDB" [] = useIndexedDB "myDB" [].
Proof.
  destruct (proj1 (plugin_installs_factory (L := Stub.lib)
                     (VuePlugin.mkApp (VuePlugin.mkAppConfig ∅))))
    as (f & Hlookup & Hf).
  exists f. split; [exact Hlookup | exact (proj1 (Hf "myDB" []))].
Defined.

End Instances.

(** * Further properties of the proxy *)

Section Further.
Context `{L : DexieLib}.
Import IndexedDB.

(** *** How a write runs *)

Lemma scope_run (tableName : string) (op : TableOp)
    (finish : Promise JsValue → Promise JsValue) (w : World) :
  (getTable tableName ≫= λ t', table_call t' op ≫= λ p, mret (finish p)) w
  = match dexie_table (db (this w)) tableName with
    | Throw _ =>
        (Throw (Error_ (tableName +:+ "은 유효하지 않은 테이블입니다.")), w)
    | Return t' =>
        match table_request t' op (db (this w)) with
        | (r, d2) =>
            (match r with
             | Return p => Return (finish p)
             | Throw x => Throw x
             end,
             world_of d2 (calls w ++ [CallTable (table_name t') op]))
        end
    end.
Proof.
  rewrite bind_run.
  destruct (dexie_table (db (this w)) tableName) as [t' | x] eqn:Ht.
  - rewrite (getTable_found _ _ _ Ht), bind_run.
    unfold table_call, request.
    destruct (table_request t' op (db (this w))) as [[p | x] d2]; reflexivity.
  - rewrite getTable_missing; [reflexivity |].
    unfold registered. rewrite Ht. reflexivity.
Qed.

Lemma plain_scope_run (tableName : string) (op : TableOp) (w : World) :
  (getTable tableName ≫= λ t', table_call t' op) w
  = (getTable tableName ≫= λ t', table_call t' op ≫= λ p, mret p) w.
Proof.
  rewrite !bind_run. destruct (getTable tableName w) as [[t' | x] w1];
    [| reflexivity].
  rewrite bind_run. destruct (table_call t' op w1) as [[p | x] w2]; reflexivity.
Qed.

Lemma db_transaction_ext {A} (mode : string) (t : Table)
    (scope1 scope2 : M (Promise A)) (w : World) :
  (∀ w1, scope1 w1 = scope2 w1) →
  db_transaction mode t scope1 w = db_transaction mode t scope2 w.
Proof.
  intros H. unfold db_transaction.
  destruct (request _ _ w) as [[[x |] | x] w1]; rewrite ?H; reflexivity.
Qed.

Lemma finishing_transaction_run (tableName : string) (t : Table) (op : TableOp)
    (finish : Promise JsValue → Promise JsValue) (w : World) :
  db_transaction "rw" t
    (getTable tableName ≫= λ t', table_call t' op ≫= λ p, mret (finish p)) w
  = transact tableName t op finish w.
Proof.
  unfold db_transaction, transact, request.
  destruct (dexie_transaction_begin "rw" t (db (this w))) as [[x |] d1];
    [reflexivity |].
  rewrite scope_run. cbn [db this calls].
  destruct (dexie_table d1 tableName) as [t' | x]; [| reflexivity].
  destruct (table_request t' op d1) as [[p | x] d2]; cbn [db this calls];
    [| reflexivity].
  destruct (finish p); reflexivity.
Qed.

Lemma plain_transaction_run (tableName : string) (t : Table) (op : TableOp)
    (w : World) :
  db_transaction "rw" t (getTable tableName ≫= λ t', table_call t' op) w
  = transact tableName t op (λ p, p) w.
Proof.
  rewrite <- finishing_transaction_run.
  apply db_transaction_ext. intros w1. apply plain_scope_run.
Qed.

Lemma transact_returns (tableName : string) (t : Table) (op : TableOp)
    (finish : Promise JsValue → Promise JsValue) (w : World) :
  ∃ p, (transact tableName t op finish w).1 = Return p.
Proof.
  unfold transact.
  destruct (dexie_transaction_begin "rw" t (db (this w))) as [[x |] d1];
    [eauto |].
  destruct (dexie_table d1 tableName) as [t' | x]; [| eauto].
  destruct (table_request t' op d1) as [r d2]. eauto.
Qed.

Lemma validExistTableSchema_world (tableName : string) (checkData : JsValue)
    (w : World) :
  (validExistTableSchema tableName checkData w).2 = w.
Proof.
  destruct (registered (db (this w)) tableName) eqn:Hreg.
  - apply registered_found in Hreg as [t Ht].
    rewrite (validExistTableSchema_run _ _ _ _ Ht).
    destruct (first_unknown _ _); reflexivity.
  - rewrite (validExistTableSchema_missing _ _ _ Hreg). reflexivity.
Qed.

Lemma validExistTableSchema_throws (tableName : string) (checkData : JsValue)
    (w : World) (x : Exception) :
  (validExistTableSchema tableName checkData w).1 = Throw x →
  (registered (db (this w)) tableName = false
   ∧ x = Error_ (tableName +:+ "은 유효하지 않은 테이블입니다."))
  ∨ (∃ key, x = Error_ (key +:+ "는 유효하지 않은 스키마입니다.")).
Proof.
  destruct (registered (db (this w)) tableName) eqn:Hreg.
  - apply registered_found in Hreg as [t Ht].
    rewrite (validExistTableSchema_run _ _ _ _ Ht).
    destruct (first_unknown _ _) as [key |]; simpl; intros H; inversion H.
    right. eauto.
  - rewrite (validExistTableSchema_missing _ _ _ Hreg). simpl.
    intros H. inversion H. left. split; reflexivity.
Qed.

(** The five writes, each as its validation followed by [transact]. *)
Lemma delete_run (tableName : string) (t : Table) (primaryKey : Z) (w : World) :
  dexie_table (db (this w)) tableName = Return t →
  delete tableName primaryKey w
  = transact tableName t (OpDelete primaryKey) (λ p, p) w.
Proof.
  intros Ht. unfold delete.
  rewrite bind_run, (getTable_found _ _ _ Ht). apply plain_transaction_run.
Qed.

Lemma bulkDelete_run (tableName : string) (t : Table) (primaryKeys : list Z)
    (w : World) :
  dexie_table (db (this w)) tableName = Return t →
  bulkDelete tableName primaryKeys w
  = transact tableName t (OpBulkDelete primaryKeys) (λ p, p) w.
Proof.
  intros Ht. unfold bulkDelete.
  rewrite bind_run, (getTable_found _ _ _ Ht). apply plain_transaction_run.
Qed.

Lemma update_run (tableName : string) (t : Table) (primaryKey : Z)
    (changeData : JsValue) (w : World) :
  dexie_table (db (this w)) tableName = Return t →
  all_fields_registered (schema t) changeData →
  update tableName primaryKey changeData w
  = transact tableName t (OpUpdate primaryKey changeData) (λ p, p) w.
Proof.
  intros Ht Hvalid. unfold update.
  rewrite bind_run, (validExistTableSchema_run _ _ _ _ Ht).
  apply first_unknown_None in Hvalid. rewrite Hvalid.
  rewrite bind_run, (getTable_found _ _ _ Ht). apply plain_transaction_run.
Qed.

Lemma bulkAdd_run (tableName : string) (t : Table) (items : list JsValue)
    (w : World) :
  dexie_table (db (this w)) tableName = Return t →
  all_fields_registered (schema t) (JsArray items) →
  bulkAdd tableName items w
  = transact tableName t (OpBulkAdd items)
             (λ p, promise_catch_named "BulkError" p bulkAdd_handler) w.
Proof.
  intros Ht Hvalid. unfold bulkAdd.
  rewrite bind_run, (validExistTableSchema_run _ _ _ _ Ht).
  apply first_unknown_None in Hvalid. rewrite Hvalid.
  rewrite bind_run, (getTable_found _ _ _ Ht).
  apply (finishing_transaction_run tableName t (OpBulkAdd items)
           (λ p, promise_catch_named "BulkError" p bulkAdd_handler)).
Qed.

Lemma add_run (tableName : string) (t : Table) (item : JsValue) (w : World) :
  dexie_table (db (this w)) tableName = Return t →
  all_fields_registered (schema t) item →
  add tableName item w
  = (match (transact tableName t (OpAdd item) (λ p, p) w).1 with
     | Return p =>
         Return (promise_catch p (λ err,
                   Throw (Error_ ("등록하는데 실패하였습니다. "
                                  +:+ exn_message err))))
     | Throw x => Throw x
     end,
     (transact tableName t (OpAdd item) (λ p, p) w).2).
Proof.
  intros Ht Hvalid. unfold add.
  rewrite bind_run, (validExistTableSchema_run _ _ _ _ Ht).
  apply first_unknown_None in Hvalid. rewrite Hvalid.
  rewrite bind_run, (getTable_found _ _ _ Ht), bind_run.
  rewrite plain_transaction_run.
  destruct (transact _ _ _ _ w) as [[p | x] w']; reflexivity.
Qed.

Lemma transact_calls (tableName : string) (t : Table) (op : TableOp)
    (finish : Promise JsValue → Promise JsValue) (w : World) :
  calls (transact tableName t op finish w).2
  = calls w ++ [CallTransaction "rw" (table_name t)]
  ∨ ∃ t', calls (transact tableName t op finish w).2
          = calls w ++ [CallTransaction "rw" (table_name t);
                        CallTable (table_name t') op].
Proof.
  unfold transact.
  destruct (dexie_transaction_begin "rw" t (db (this w))) as [[x |] d1];
    [left; reflexivity |].
  destruct (dexie_table d1 tableName) as [t' | x]; [| left; reflexivity].
  destruct (table_request t' op d1) as [r d2].
  right. exists t'. simpl. rewrite <- app_assoc. reflexivity.
Qed.

(** Every write either throws in its validation, with the world as it
    was, or runs as [transact] does. *)
Lemma write_cases (tableName : string) (m : M (Promise JsValue)) (w : World) :
  write_method tableName m →
  (∃ x, m w = (Throw x, w)
        ∧ ((registered (db (this w)) tableName = false
            ∧ x = Error_ (tableName +:+ "은 유효하지 않은 테이블입니다."))
           ∨ ∃ key, x = Error_ (key +:+ "는 유효하지 않은 스키마입니다.")))
  ∨ (∃ t op finish p,
       dexie_table (db (this w)) tableName = Return t
       ∧ (transact tableName t op finish w).1 = Return p
       ∧ (m w).2 = (transact tableName t op finish w).2
       ∧ ((m w).1 = Return p
          ∨ (m w).1
            = Return (promise_catch p (λ err,
                        Throw (Error_ ("등록하는데 실패하였습니다. "
                                       +:+ exn_message err)))))).
Proof.
  intros Hm.
  destruct (registered (db (this w)) tableName) eqn:Hreg.
  - destruct (registered_found _ _ Hreg) as [t Ht].
    assert (Hvalid : ∀ checkData,
              (∃ key, validExistTableSchema tableName checkData w
                      = (Throw (Error_ (key +:+ "는 유효하지 않은 스키마입니다.")), w))
              ∨ all_fields_registered (schema t) checkData).
    { intros checkData.
      pose proof (validExistTableSchema_run _ _ checkData _ Ht) as Hrun.
      destruct (first_unknown _ (records_of checkData)) eqn:Hfirst.
      - left. eauto.
      - right. apply first_unknown_None. exact Hfirst. }
    destruct Hm as [[item ->] | [(pk & cd & ->) | [[pk ->] | [[items ->] | [pks ->]]]]].
    + destruct (Hvalid item) as [[key Hkey] | Hok].
      * left. eexists. split; [| right; eauto].
        unfold add. rewrite bind_run, Hkey. reflexivity.
      * right. destruct (transact_returns tableName t (OpAdd item) (λ p, p) w)
          as [p Hp].
        exists t, (OpAdd item), (λ p, p), p.
        rewrite (add_run _ _ _ _ Ht Hok), Hp. auto.
    + destruct (Hvalid cd) as [[key Hkey] | Hok].
      * left. eexists. split; [| right; eauto].
        unfold update. rewrite bind_run, Hkey. reflexivity.
      * right. destruct (transact_returns tableName t (OpUpdate pk cd) (λ p, p) w)
          as [p Hp].
        exists t, (OpUpdate pk cd), (λ p, p), p.
        rewrite (update_run _ _ _ _ _ Ht Hok). auto.
    + right. destruct (transact_returns tableName t (OpDelete pk) (λ p, p) w)
        as [p Hp].
      exists t, (OpDelete pk), (λ p, p), p.
      rewrite (delete_run _ _ _ _ Ht). auto.
    + destruct (Hvalid (JsArray items)) as [[key Hkey] | Hok].
      * left. eexists. split; [| right; eauto].
        unfold bulkAdd. rewrite bind_run, Hkey. reflexivity.
      * right.
        destruct (transact_returns tableName t (OpBulkAdd items)
                    (λ p, promise_catch_named "BulkError" p bulkAdd_handler) w)
          as [p Hp].
        exists t, (OpBulkAdd items),
          (λ p, promise_catch_named "BulkError" p bulkAdd_handler), p.
        rewrite (bulkAdd_run _ _ _ _ Ht Hok). auto.
    + right. destruct (transact_returns tableName t (OpBulkDelete pks) (λ p, p) w)
        as [p Hp].
      exists t, (OpBulkDelete pks), (λ p, p), p.
      rewrite (bulkDelete_run _ _ _ _ Ht). auto.
  - left. exists (Error_ (tableName +:+ "은 유효하지 않은 테이블입니다.")).
    split; [| left; split; reflexivity].
    pose proof (getTable_missing _ _ Hreg) as Hget.
    destruct Hm as [[item ->] | [(pk & cd & ->) | [[pk ->] | [[items ->] | [pks ->]]]]];
      unfold add, update, delete, bulkAdd, bulkDelete;
      rewrite bind_run, ?(validExistTableSchema_missing _ _ _ Hreg), ?Hget;
      reflexivity.
Qed.

(** *** Methods that only read *)

(** X1: the methods that read the handle, and the two private
    validators, leave the world as it was: they send nothing to the
    library and do not change the handle, whether they return or throw. *)
Theorem readers_leave_world (w : World) :
  (getDatabaseName w).2 = w
  ∧ (getVersionNo w).2 = w
  ∧ (getTableList w).2 = w
  ∧ (∀ tableName,
       (getTable tableName w).2 = w ∧ (getTableSchema tableName w).2 = w)
  ∧ (∀ s, (validExistTable s w).2 = w)
  ∧ (∀ tableName checkData,
       (validExistTableSchema tableName checkData w).2 = w).
Proof.
  assert (Hget : ∀ tableName, (getTable tableName w).2 = w).
  { intros tableName. destruct (registered (db (this w)) tableName) eqn:Hreg.
    - apply registered_found in Hreg as [t Ht].
      rewrite (getTable_found _ _ _ Ht). reflexivity.
    - rewrite (getTable_missing _ _ Hreg). reflexivity. }
  repeat split; try reflexivity.
  - apply Hget.
  - unfold getTableSchema. rewrite bind_run.
    specialize (Hget tableName).
    destruct (getTable tableName w) as [[t | x] w']; exact Hget.
  - intros s. rewrite validExistTable_run.
    destruct (find _ _); reflexivity.
  - intros tableName checkData. apply validExistTableSchema_world.
Qed.

(** *** The writes: add, update, delete, bulkAdd, bulkDelete *)

(** X2: a write that throws synchronously has sent nothing to the library
    and left the handle alone, and what it throws is the error of
    the unknown table or of an unknown field name. *)
Theorem thrown_write_sends_nothing (tableName : string)
    (m : M (Promise JsValue)) (w : World) (x : Exception) :
  write_method tableName m →
  (m w).1 = Throw x →
  (m w).2 = w
  ∧ ((registered (db (this w)) tableName = false
      ∧ x = Error_ (tableName +:+ "은 유효하지 않은 테이블입니다."))
     ∨ ∃ key, x = Error_ (key +:+ "는 유효하지 않은 스키마입니다.")).
Proof.
  intros Hm Hthrow.
  destruct (write_cases tableName m w Hm)
    as [(x' & Hrun & Hkind) | (t & op & finish & p & _ & _ & _ & Hret)].
  - rewrite Hrun in Hthrow |- *. simpl in Hthrow. inversion Hthrow; subst.
    split; [reflexivity | exact Hkind].
  - rewrite Hthrow in Hret. destruct Hret; discriminate.
Qed.

(** X3: a write sends nothing, or only the request for a read-write
    transaction, or that request followed by one call of a method of a
    table; it never calls a table outside a transaction. *)
Theorem writes_are_transactional (tableName : string)
    (m : M (Promise JsValue)) (w : World) :
  write_method tableName m →
  ∃ sent,
    calls (after m w) = calls w ++ sent
    ∧ (sent = []
       ∨ (∃ t, sent = [CallTransaction "rw" t])
       ∨ (∃ t t' op, sent = [CallTransaction "rw" t; CallTable t' op])).
Proof.
  intros Hm. unfold after.
  destruct (write_cases tableName m w Hm)
    as [(x' & Hrun & _) | (t & op & finish & p & _ & _ & Hworld & _)].
  - exists []. rewrite Hrun, app_nil_r. auto.
  - rewrite Hworld.
    destruct (transact_calls tableName t op finish w) as [H | [t' H]];
      rewrite H; eauto 8.
Qed.

(** X4: whenever [add] returns a promise that is rejected, the message of
    the rejection begins with "등록하는데 실패하였습니다.". *)
Theorem add_rejections_are_wrapped (tableName : string) (item : JsValue)
    (w : World) (x : Exception) :
  (add tableName item w).1 = Return (Rejected x) →
  String.prefix "등록하는데 실패하였습니다." (exn_message x) = true.
Proof.
  unfold add. rewrite bind_run.
  destruct (validExistTableSchema tableName item w) as [[u | x'] w1];
    [| discriminate].
  rewrite bind_run. destruct (getTable tableName w1) as [[t | x'] w2];
    [| discriminate].
  rewrite bind_run. destruct (db_transaction _ _ _ w2) as [[p | x'] w3];
    [| discriminate].
  rewrite ret_run. destruct p as [a | x0]; simpl; intros H; inversion H.
  apply (prefix_append "등록하는데 실패하였습니다.").
Qed.

(** X5: once the transaction has started, [update], [delete] and
    [bulkDelete] return the very promise the method of the table returns:
    unlike [add], they do not reword a rejection. *)
Theorem library_outcome_comes_back (tableName : string) (t t' : Table)
    (w : World) (d1 : Dexie) :
  dexie_table (db (this w)) tableName = Return t →
  dexie_transaction_begin "rw" t (db (this w)) = (None, d1) →
  dexie_table d1 tableName = Return t' →
  (∀ primaryKey p d2,
     table_request t' (OpDelete primaryKey) d1 = (Return p, d2) →
     (delete tableName primaryKey w).1 = Return p)
  ∧ (∀ primaryKeys p d2,
       table_request t' (OpBulkDelete primaryKeys) d1 = (Return p, d2) →
       (bulkDelete tableName primaryKeys w).1 = Return p)
  ∧ (∀ primaryKey changeData p d2,
       all_fields_registered (schema t) changeData →
       table_request t' (OpUpdate primaryKey changeData) d1 = (Return p, d2) →
       (update tableName primaryKey changeData w).1 = Return p).
Proof.
  intros Ht Hbegin Ht'.
  assert (H : ∀ op p d2,
            table_request t' op d1 = (Return p, d2) →
            (transact tableName t op (λ p, p) w).1 = Return p).
  { intros op p d2 Hop. unfold transact. rewrite Hbegin, Ht', Hop.
    reflexivity. }
  split; [| split].
  - intros pk p d2 Hop. rewrite (delete_run _ _ _ _ Ht). exact (H _ _ _ Hop).
  - intros pks p d2 Hop. rewrite (bulkDelete_run _ _ _ _ Ht).
    exact (H _ _ _ Hop).
  - intros pk cd p d2 Hok Hop. rewrite (update_run _ _ _ _ _ Ht Hok).
    exact (H _ _ _ Hop).
Qed.

(** X6: when the bulk insertion wrapped by [bulkAdd] resolves, or is
    rejected with an error that is not a [BulkError], [bulkAdd] returns
    that very promise. *)
Theorem bulkAdd_passes_other_outcomes
    (tableName : string) (items : list JsValue) (t t' : Table) (w : World)
    (d1 d2 : Dexie) (p : Promise JsValue) :
  dexie_table (db (this w)) tableName = Return t →
  all_fields_registered (schema t) (JsArray items) →
  dexie_transaction_begin "rw" t (db (this w)) = (None, d1) →
  dexie_table d1 tableName = Return t' →
  table_request t' (OpBulkAdd items) d1 = (Return p, d2) →
  (resolved p = true ∨ ∃ x, p = Rejected x ∧ exn_name x ≠ "BulkError") →
  (bulkAdd tableName items w).1 = Return p.
Proof.
  intros Ht Hvalid Hbegin Ht' Hbulk Hp.
  rewrite (bulkAdd_run _ _ _ _ Ht Hvalid).
  unfold transact. rewrite Hbegin, Ht', Hbulk. simpl.
  destruct Hp as [Hp | (x & -> & Hname)].
  - destruct p; [reflexivity | discriminate].
  - unfold promise_catch_named.
    destruct (String.eqb (exn_name x) "BulkError") eqn:Heq; [| reflexivity].
    apply String.eqb_eq in Heq. contradiction.
Qed.

(** X7: a [BulkError] that reports no failed position is swallowed: the
    loop of the handler does not run, and [bulkAdd] returns a promise
    resolved with [undefined]. *)
Theorem bulkAdd_swallows_empty_BulkError
    (tableName : string) (items : list JsValue) (t t' : Table) (w : World)
    (d1 d2 : Dexie) (x : Exception) :
  dexie_table (db (this w)) tableName = Return t →
  all_fields_registered (schema t) (JsArray items) →
  dexie_transaction_begin "rw" t (db (this w)) = (None, d1) →
  dexie_table d1 tableName = Return t' →
  table_request t' (OpBulkAdd items) d1 = (Return (Rejected x), d2) →
  exn_name x = "BulkError" →
  failuresByPos x = [] →
  (bulkAdd tableName items w).1 = Return (Resolved JsUndefined).
Proof.
  intros Ht Hvalid Hbegin Ht' Hbulk Hname Hnone.
  rewrite (bulkAdd_run _ _ _ _ Ht Hvalid).
  unfold transact. rewrite Hbegin, Ht', Hbulk. simpl.
  unfold promise_catch_named. rewrite Hname. simpl.
  unfold bulkAdd_handler. rewrite Hnone. reflexivity.
Qed.

(** *** get, bulkGet, clearTable *)

(** X8: [get] rewords what is thrown synchronously, by the lookup of the
    table or by the table's [get], so every exception of [get] has a
    message that begins with "데이터를 가져오는데 실패하였습니다."; a promise
    the table's [get] returns comes back as it is, rejected or not, after
    one request and no transaction. *)
Theorem get_rewords_synchronous_errors_only (tableName : string)
    (option : JsValue) (w : World) :
  (∀ x,
     (get tableName option w).1 = Throw x →
     String.prefix "데이터를 가져오는데 실패하였습니다." (exn_message x) = true)
  ∧ (∀ t p d2,
       dexie_table (db (this w)) tableName = Return t →
       table_request t (OpGet option) (db (this w)) = (Return p, d2) →
       get tableName option w
       = (Return p,
          world_of d2 (calls w ++ [CallTable (table_name t) (OpGet option)]))).
Proof.
  split.
  - intros x. unfold get, try_catch.
    destruct ((getTable tableName ≫= λ t, table_call t (OpGet option)) w)
      as [[p | x'] w1]; [discriminate |].
    simpl. intros H. inversion H.
    apply (prefix_append "데이터를 가져오는데 실패하였습니다.").
  - intros t p d2 Ht Hget. unfold get, try_catch.
    rewrite bind_run, (getTable_found _ _ _ Ht).
    unfold table_call, request. rewrite Hget. reflexivity.
Qed.

(** X9: [clearTable] drops the promise of the table's [clear]: on a
    registered table it returns normally whenever [clear] returns a
    promise, even a rejected one; only an exception of [clear] itself comes
    out, unchanged. *)
Theorem clearTable_drops_the_promise (tableName : string) (t : Table)
    (w : World) :
  dexie_table (db (this w)) tableName = Return t →
  let sent := calls w ++ [CallTable (table_name t) OpClear] in
  (∀ p d2,
     table_request t OpClear (db (this w)) = (Return p, d2) →
     clearTable tableName w = (Return tt, world_of d2 sent))
  ∧ (∀ x d2,
       table_request t OpClear (db (this w)) = (Throw x, d2) →
       clearTable tableName w = (Throw x, world_of d2 sent)).
Proof.
  intros Ht sent. subst sent.
  split; intros a d2 Hclear; unfold clearTable;
    rewrite bind_run, (getTable_found _ _ _ Ht), bind_run;
    unfold table_call, request; rewrite Hclear; reflexivity.
Qed.

(** *** dropTable and updateTableSchema *)

(** X10: [dropTable] returns normally exactly when the table is
    registered and the versioning request returns; everything it throws
    has a message that begins with "테이블을 삭제하는데 실패하였습니다.". *)
Theorem dropTable_outcome (tableName : string) (w : World) :
  let d := db (this w) in
  ((dropTable tableName w).1 = Return tt
   ↔ registered d tableName = true
     ∧ (dexie_version_stores (dexie_verno d + 1) [(tableName, None)]
                             (dexie_close d)).1 = Return tt)
  ∧ (∀ x,
       (dropTable tableName w).1 = Throw x →
       String.prefix "테이블을 삭제하는데 실패하였습니다." (exn_message x) = true).
Proof.
  intros d. subst d.
  destruct (registered (db (this w)) tableName) eqn:Hreg.
  - destruct (registered_found _ _ Hreg) as [t Ht].
    rewrite (dropTable_registered _ _ _ Ht). cbn [fst].
    destruct (dexie_version_stores _ _ _).1 as [[] | x0]; split.
    + split; auto.
    + intros x H. discriminate.
    + split; [discriminate | intros [_ H]; discriminate].
    + intros x H. inversion H.
      apply (prefix_append "테이블을 삭제하는데 실패하였습니다.").
  - rewrite (dropTable_unregistered _ _ Hreg). cbn [fst]. split.
    + split; [discriminate | intros [H _]; discriminate].
    + intros x H. inversion H.
      apply (prefix_append "테이블을 삭제하는데 실패하였습니다.").
Qed.

(** X11: [updateTableSchema] never reopens the database: it sends nothing,
    or [close] followed by the versioning request, and [open] is not among
    its requests. *)
Theorem updateTableSchema_never_reopens (s : TableSchema) (w : World) :
  ∃ sent,
    calls (after (updateTableSchema s) w) = calls w ++ sent
    ∧ ¬ In CallOpen sent
    ∧ (sent = []
       ∨ sent = [CallClose;
                 CallVersionStores (dexie_verno (db (this w)) + 1) s]).
Proof.
  unfold after. rewrite updateTableSchema_run.
  destruct (find _ (Object_keys s)).
  - exists []. rewrite app_nil_r. simpl. auto.
  - eexists. split; [reflexivity |]. split; [| auto].
    simpl. intros [H | [H | []]]; discriminate.
Qed.

(** X12: dropping a table is updating the schema with the mapping of the
    table to [null] and then opening the database: the two leave the same
    world, and one returns normally exactly when the other does. *)
Theorem dropTable_is_update_then_open (tableName : string) (w : World) :
  after (dropTable tableName) w
  = after db_open (after (updateTableSchema [(tableName, None)]) w)
  ∧ ((dropTable tableName w).1 = Return tt
     ↔ (updateTableSchema [(tableName, None)] w).1 = Return tt).
Proof.
  unfold after. rewrite updateTableSchema_run. cbn [Object_keys map fst find].
  destruct (registered (db (this w)) tableName) eqn:Hreg; cbn [negb].
  - destruct (registered_found _ _ Hreg) as [t Ht].
    rewrite (dropTable_registered _ _ _ Ht). cbn [fst snd].
    split.
    + unfold db_open, request, world_of. cbn [db this calls snd].
      rewrite <- app_assoc. reflexivity.
    + destruct (dexie_version_stores _ _ _).1 as [[] | x0];
        split; auto; discriminate.
  - rewrite (dropTable_unregistered _ _ Hreg). cbn [fst snd].
    split; [reflexivity | split; discriminate].
Qed.

(** *** What the validation looks at *)

Lemma first_unknown_names (fieldNames : list string) (a b : JsValue) :
  field_names a = field_names b →
  first_unknown fieldNames (records_of a)
  = first_unknown fieldNames (records_of b).
Proof. unfold first_unknown, field_names. intros ->. reflexivity. Qed.

(** X13: the validation reads the field names of the records and nothing
    else: two arguments whose records have the same field names, in the
    same order, are validated alike whatever the values of the fields. *)
Theorem validation_reads_names_only (tableName : string) (a b : JsValue)
    (w : World) :
  field_names a = field_names b →
  validExistTableSchema tableName a w = validExistTableSchema tableName b w.
Proof.
  intros Hnames.
  destruct (registered (db (this w)) tableName) eqn:Hreg.
  - destruct (registered_found _ _ Hreg) as [t Ht].
    rewrite !(validExistTableSchema_run _ _ _ _ Ht).
    rewrite (first_unknown_names _ a b Hnames). reflexivity.
  - rewrite !(validExistTableSchema_missing _ _ _ Hreg). reflexivity.
Qed.

(** X14: validating a list of records is validating its parts in order:
    the outcome for [xs ++ ys] is the error for [xs] if there is one, and
    the outcome for [ys] otherwise. *)
Theorem validation_of_concatenation (tableName : string)
    (xs ys : list JsValue) (w : World) :
  (validExistTableSchema tableName (JsArray (xs ++ ys)) w).1
  = match (validExistTableSchema tableName (JsArray xs) w).1 with
    | Return _ => (validExistTableSchema tableName (JsArray ys) w).1
    | Throw x => Throw x
    end.
Proof.
  destruct (registered (db (this w)) tableName) eqn:Hreg.
  - destruct (registered_found _ _ Hreg) as [t Ht].
    rewrite !(validExistTableSchema_run _ _ _ _ Ht).
    unfold first_unknown. cbn [records_of].
    rewrite map_app, concat_app, find_app_first.
    destruct (find _ (concat (map for_in_keys xs))); reflexivity.
  - rewrite !(validExistTableSchema_missing _ _ _ Hreg). reflexivity.
Qed.

Lemma find_first {A} (f : A → bool) (l : list A) (a : A) :
  find f l = Some a →
  ∃ before rest,
    l = before ++ a :: rest ∧ (∀ y, In y before → f y = false) ∧ f a = true.
Proof.
  induction l as [| y l IH]; simpl; [discriminate |].
  destruct (f y) eqn:Hy.
  - intros H. inversion H; subst. exists [], l.
    split; [reflexivity |]. split; [intros ? [] | exact Hy].
  - intros H. destruct (IH H) as (before & rest & -> & Hbefore & Ha).
    exists (y :: before), rest. split; [reflexivity |].
    split; [| exact Ha].
    intros z [<- | Hz]; [exact Hy | exact (Hbefore z Hz)].
Qed.

(** X15: on a registered table, the error of the validation names the
    first unregistered field name in the order the records and their
    fields are enumerated: every name before it is registered. *)
Theorem validation_names_the_first_unknown (tableName : string) (t : Table)
    (checkData : JsValue) (w : World) (x : Exception) :
  dexie_table (db (this w)) tableName = Return t →
  (validExistTableSchema tableName checkData w).1 = Throw x →
  ∃ before key rest,
    concat (field_names checkData) = before ++ key :: rest
    ∧ (∀ name, In name before → registered_field (schema t) name)
    ∧ ¬ registered_field (schema t) key
    ∧ x = Error_ (key +:+ "는 유효하지 않은 스키마입니다.").
Proof.
  intros Ht. rewrite (validExistTableSchema_run _ _ _ _ Ht).
  destruct (first_unknown _ (records_of checkData)) as [key |] eqn:Hfirst;
    [| discriminate].
  simpl. intros H. inversion H.
  destruct (first_unknown_Some _ _ _ Hfirst) as [_ Hneg].
  unfold first_unknown in Hfirst.
  apply find_first in Hfirst as (before & rest & Hsplit & Hbefore & _).
  exists before, key, rest. split; [exact Hsplit |].
  split; [| split; [exact Hneg | reflexivity]].
  intros name Hname. apply field_names_registered, includes_In.
  specialize (Hbefore name Hname). simpl in Hbefore.
  destruct (includes _ name); [reflexivity | discriminate].
Qed.

(** X16: data without field names (an empty list, an empty object, a
    number, [null]) passes the validation exactly when the table is
    registered. *)
Theorem validation_of_keyless_data (tableName : string) (checkData : JsValue)
    (w : World) :
  concat (field_names checkData) = [] →
  ((validExistTableSchema tableName checkData w).1 = Return tt
   ↔ registered (db (this w)) tableName = true).
Proof.
  intros Hnone.
  destruct (registered (db (this w)) tableName) eqn:Hreg.
  - destruct (registered_found _ _ Hreg) as [t Ht].
    rewrite (validExistTableSchema_run _ _ _ _ Ht).
    unfold first_unknown. unfold field_names in Hnone. rewrite Hnone.
    simpl. split; reflexivity.
  - rewrite (validExistTableSchema_missing _ _ _ Hreg). simpl.
    split; discriminate.
Qed.

(** X17: [update] throws on a changed record exactly when [add] throws on
    it, with the same error: the primary key plays no part in the
    validation. *)
Theorem update_validates_as_add (tableName : string) (primaryKey : Z)
    (changeData : JsValue) (w : World) (x : Exception) :
  (update tableName primaryKey changeData w).1 = Throw x
  ↔ (add tableName changeData w).1 = Throw x.
Proof.
  rewrite add_throws. unfold update. rewrite bind_run.
  destruct (validExistTableSchema tableName changeData w)
    as [[u | x'] w'] eqn:Hv;
    [| simpl; split; intros H; inversion H; reflexivity].
  apply validExistTableSchema_returns in Hv as [-> [t Ht]].
  rewrite bind_run, (getTable_found _ _ _ Ht).
  match goal with
  | |- context [db_transaction ?mode ?t ?scope ?w] =>
      destruct (db_transaction_returns mode t scope w) as (p & w' & ->)
  end.
  simpl. split; discriminate.
Qed.

(** *** Construction *)

(** X18: [useIndexedDB] builds a new proxy at every call, also for a name
    it was given before: two calls in a row return two different
    addresses, each holding the proxy built for its name, and the proxies
    that existed stay as they were. *)
Theorem proxies_are_distinct (a b : string) (h : Heap) :
  let first := useIndexedDB a h in
  let second := useIndexedDB b first.2 in
  first.1 ≠ second.1
  ∧ second.2 !! first.1 = Some (constructor a)
  ∧ second.2 !! second.1 = Some (constructor b)
  ∧ (∀ r p, h !! r = Some p → second.2 !! r = Some p).
Proof.
  intros first second. subst first second.
  unfold useIndexedDB, new_IndexedDBProxy, Heap in *. cbn [fst snd].
  split; [rewrite length_app; simpl; lia |]. split; [| split].
  - rewrite lookup_app_l by (rewrite length_app; simpl; lia).
    apply list_lookup_middle. reflexivity.
  - apply list_lookup_middle. reflexivity.
  - intros r p Hr. pose proof (lookup_lt_Some _ _ _ Hr) as Hlt.
    rewrite lookup_app_l by (rewrite length_app; lia).
    rewrite lookup_app_l by exact Hlt. exact Hr.
Qed.

End Further.

Section FurtherPlugin.
Context `{L : DexieLib}.
Import IndexedDB VuePlugin.

(** X19: [install] touches one global property: the others keep their
    values, whatever was under [$indexedDB] is replaced by the factory,
    and installing twice is installing once. *)
Theorem install_touches_one_property (app : App) :
  install (install app) = install app
  ∧ (∀ key,
       key ≠ "$indexedDB" →
       globalProperties (config (install app)) !! key
       = globalProperties (config app) !! key)
  ∧ (∀ other,
       globalProperties (config (install app)) !! "$indexedDB"
       = globalProperties (config (install other)) !! "$indexedDB").
Proof.
  split; [| split].
  - unfold install. cbn [config globalProperties].
    rewrite insert_insert_eq. reflexivity.
  - intros key Hkey. unfold install. cbn [config globalProperties].
    apply lookup_insert_ne. congruence.
  - intros other. unfold install. cbn [config globalProperties].
    rewrite !lookup_insert_eq. reflexivity.
Qed.

End FurtherPlugin.

(** *** The build configuration *)

Lemma append_cons (c : ascii) (s t : string) :
  String c s +:+ t = String c (s +:+ t).
Proof. reflexivity. Qed.

Lemma length_append (s t : string) :
  String.length (s +:+ t) = (String.length s + String.length t)%nat.
Proof.
  induction s as [| c s IH]; [reflexivity |].
  rewrite append_cons. simpl. rewrite IH. reflexivity.
Qed.

Lemma append_inv_head (s t1 t2 : string) : s +:+ t1 = s +:+ t2 → t1 = t2.
Proof.
  induction s as [| c s IH]; [auto |].
  rewrite !append_cons. intros H. inversion H. auto.
Qed.

Lemma append_inv_tail (s1 s2 t : string) : s1 +:+ t = s2 +:+ t → s1 = s2.
Proof.
  revert s2. induction s1 as [| c1 s1 IH]; intros [| c2 s2] H.
  - reflexivity.
  - apply (f_equal String.length) in H.
    rewrite !length_append in H. simpl in H. lia.
  - apply (f_equal String.length) in H.
    rewrite !length_append in H. simpl in H. lia.
  - rewrite !append_cons in H. inversion H. f_equal. auto.
Qed.

(** X20: the file names of the build tell the formats and the entries
    apart: for one entry two formats give two names, for one format two
    entries give two names, and so the [es] and the [umd] bundle of an
    entry never share a file. *)
Theorem fileName_is_injective :
  (∀ entryName f1 f2,
     ViteConfig.fileName f1 entryName = ViteConfig.fileName f2 entryName →
     f1 = f2)
  ∧ (∀ format e1 e2,
       ViteConfig.fileName format e1 = ViteConfig.fileName format e2 →
       e1 = e2)
  ∧ (∀ entryName f1 f2,
       In f1 ViteConfig.formats → In f2 ViteConfig.formats → f1 ≠ f2 →
       ViteConfig.fileName f1 entryName ≠ ViteConfig.fileName f2 entryName).
Proof.
  assert (Hformat : ∀ entryName f1 f2,
            ViteConfig.fileName f1 entryName = ViteConfig.fileName f2 entryName →
            f1 = f2).
  { unfold ViteConfig.fileName. intros entryName f1 f2 H.
    apply append_inv_head, append_inv_head, append_inv_tail in H. exact H. }
  split; [exact Hformat |]. split.
  - unfold ViteConfig.fileName. intros format e1 e2 H.
    apply (append_inv_tail e1 e2 ("." +:+ format +:+ ".js")). exact H.
  - intros entryName f1 f2 _ _ Hne H. apply Hne. exact (Hformat _ _ _ H).
Qed.

(** * The further properties on the sample database *)

Section FurtherInstances.
Import IndexedDB.

Lemma alice_is_valid :
  all_fields_registered (schema Sample.users) Sample.alice.
Proof.
  intros record key [<- | []] Hkey. unfold registered_field. simpl in *.
  destruct Hkey as [<- | [<- | []]]; auto.
Qed.

Lemma alices_are_valid :
  all_fields_registered (schema Sample.users)
                        (JsArray [Sample.alice; Sample.alice]).
Proof.
  intros record key Hrecord Hkey. unfold registered_field. simpl in *.
  destruct Hrecord as [<- | [<- | []]];
    simpl in Hkey; destruct Hkey as [<- | [<- | []]]; auto.
Qed.

(** [add] on the table [orders], which does not exist. *)
Lemma thrown_write_sends_nothing_witness :
  (add (L := Stub.lib) "orders" Sample.alice Sample.world).1
  = Throw (Error_ "orders은 유효하지 않은 테이블입니다.")
  ∧ (add (L := Stub.lib) "orders" Sample.alice Sample.world).2 = Sample.world.
Proof.
  split; [reflexivity |].
  exact (proj1 (thrown_write_sends_nothing (L := Stub.lib) "orders"
                  (add "orders" Sample.alice) Sample.world
                  (Error_ "orders은 유효하지 않은 테이블입니다.")
                  (or_introl (ex_intro _ Sample.alice eq_refl)) eq_refl)).
Defined.

(** [delete] on the table [users]. *)
Lemma writes_are_transactional_witness :
  ∃ sent,
    calls (after (delete (L := Stub.lib) "users" 7) Sample.world)
    = calls Sample.world ++ sent
    ∧ (sent = []
       ∨ (∃ t, sent = [CallTransaction "rw" t])
       ∨ (∃ t t' op, sent = [CallTransaction "rw" t; CallTable t' op])).
Proof.
  apply (writes_are_transactional (L := Stub.lib) "users").
  right. right. left. exists 7. reflexivity.
Defined.

(** [add] when the key of the record is taken. *)
Lemma add_rejections_are_wrapped_witness :
  (add (L := Scripted.lib) "users" Sample.alice
       (Scripted.world (Return tt) None
          (λ _, Return (Rejected Scripted.constraint)))).1
  = Return (Rejected (Error_ "등록하는데 실패하였습니다. Key already exists in the object store."))
  ∧ String.prefix "등록하는데 실패하였습니다."
      (exn_message (Error_ "등록하는데 실패하였습니다. Key already exists in the object store."))
    = true.
Proof.
  split; [reflexivity |].
  apply (add_rejections_are_wrapped (L := Scripted.lib) "users" Sample.alice
           (Scripted.world (Return tt) None
              (λ _, Return (Rejected Scripted.constraint)))).
  reflexivity.
Defined.

(** [delete] when the table's method rejects. *)
Lemma library_outcome_comes_back_witness :
  (delete (L := Scripted.lib) "users" 7
     (Scripted.world (Return tt) None
        (λ _, Return (Rejected Scripted.constraint)))).1
  = Return (Rejected Scripted.constraint).
Proof.
  exact (proj1 (library_outcome_comes_back (L := Scripted.lib)
                  "users" Sample.users Sample.users
                  (Scripted.world (Return tt) None
                     (λ _, Return (Rejected Scripted.constraint)))
                  (Scripted.database (Return tt) None
                     (λ _, Return (Rejected Scripted.constraint)))
                  eq_refl eq_refl eq_refl)
           7 (Rejected Scripted.constraint)
           (Scripted.database (Return tt) None
              (λ _, Return (Rejected Scripted.constraint)))
           eq_refl).
Defined.

(** [bulkAdd] of two records when the insertion succeeds with last key 2. *)
Lemma bulkAdd_passes_other_outcomes_witness :
  (bulkAdd (L := Scripted.lib) "users" [Sample.alice; Sample.alice]
     (Scripted.world (Return tt) None
        (λ _, Return (Resolved (JsNumber 2))))).1
  = Return (Resolved (JsNumber 2)).
Proof.
  apply (bulkAdd_passes_other_outcomes (L := Scripted.lib)
           "users" [Sample.alice; Sample.alice] Sample.users Sample.users
           (Scripted.world (Return tt) None
              (λ _, Return (Resolved (JsNumber 2))))
           (Scripted.database (Return tt) None
              (λ _, Return (Resolved (JsNumber 2))))
           (Scripted.database (Return tt) None
              (λ _, Return (Resolved (JsNumber 2))))
           (Resolved (JsNumber 2))
           eq_refl alices_are_valid eq_refl eq_refl eq_refl
           (or_introl eq_refl)).
Defined.

(** [bulkAdd] when the insertion rejects with a [BulkError] that lists no
    position. *)
Lemma bulkAdd_swallows_empty_BulkError_witness :
  (bulkAdd (L := Scripted.lib) "users" [Sample.alice; Sample.alice]
     (Scripted.world (Return tt) None
        (λ _, Return (Rejected Scripted.empty_bulk)))).1
  = Return (Resolved JsUndefined).
Proof.
  apply (bulkAdd_swallows_empty_BulkError (L := Scripted.lib)
           "users" [Sample.alice; Sample.alice] Sample.users Sample.users
           (Scripted.world (Return tt) None
              (λ _, Return (Rejected Scripted.empty_bulk)))
           (Scripted.database (Return tt) None
              (λ _, Return (Rejected Scripted.empty_bulk)))
           (Scripted.database (Return tt) None
              (λ _, Return (Rejected Scripted.empty_bulk)))
           Scripted.empty_bulk
           eq_refl alices_are_valid eq_refl eq_refl eq_refl eq_refl eq_refl).
Defined.

(** [clearTable] on a closed database: the rejection is not seen. *)
Lemma clearTable_drops_the_promise_witness :
  clearTable (L := Scripted.lib) "users"
    (Scripted.world (Return tt) None
       (λ _, Return (Rejected Scripted.closed)))
  = (Return tt,
     world_of (L := Scripted.lib)
       (Scripted.database (Return tt) None
          (λ _, Return (Rejected Scripted.closed)))
       [CallTable "users" OpClear]).
Proof.
  exact (proj1 (clearTable_drops_the_promise (L := Scripted.lib)
                  "users" Sample.users
                  (Scripted.world (Return tt) None
                     (λ _, Return (Rejected Scripted.closed)))
                  eq_refl)
           (Rejected Scripted.closed)
           (Scripted.database (Return tt) None
              (λ _, Return (Rejected Scripted.closed)))
           eq_refl).
Defined.

(** Two records with the fields [name] and [age] and different values. *)
Lemma validation_reads_names_only_witness :
  validExistTableSchema (L := Stub.lib) "users" Sample.alice Sample.world
  = validExistTableSchema "users"
      (JsObject [("name", JsNull); ("age", JsArray [])]) Sample.world.
Proof.
  exact (validation_reads_names_only (L := Stub.lib) "users" Sample.alice
           (JsObject [("name", JsNull); ("age", JsArray [])]) Sample.world
           eq_refl).
Defined.

(** [alice] followed by [stray]: the names [name] and [age] of [alice] and
    [name] of [stray] come before [email]. *)
Lemma validation_names_the_first_unknown_witness :
  ∃ before key rest,
    concat (field_names (JsArray [Sample.alice; Sample.stray]))
    = before ++ key :: rest
    ∧ (∀ name, In name before → registered_field (schema Sample.users) name)
    ∧ ¬ registered_field (schema Sample.users) key
    ∧ Error_ "email는 유효하지 않은 스키마입니다."
      = Error_ (key +:+ "는 유효하지 않은 스키마입니다.").
Proof.
  exact (validation_names_the_first_unknown (L := Stub.lib)
           "users" Sample.users (JsArray [Sample.alice; Sample.stray])
           Sample.world (Error_ "email는 유효하지 않은 스키마입니다.")
           eq_refl eq_refl).
Defined.

(** The empty list of records, on [users] and on [orders]. *)
Lemma validation_of_keyless_data_witness :
  (validExistTableSchema (L := Stub.lib) "users" (JsArray []) Sample.world).1
  = Return tt
  ∧ (validExistTableSchema (L := Stub.lib) "orders" (JsArray []) Sample.world).1
    ≠ Return tt.
Proof.
  split.
  - apply (validation_of_keyless_data (L := Stub.lib) "users" (JsArray [])
             Sample.world eq_refl).
    reflexivity.
  - intros H.
    apply (validation_of_keyless_data (L := Stub.lib) "orders" (JsArray [])
             Sample.world eq_refl) in H.
    discriminate H.
Defined.

(** [get] when the table's method throws for a key that is not valid. *)
Lemma get_rewords_synchronous_errors_only_witness :
  (get (L := Scripted.lib) "users" JsUndefined
     (Scripted.world (Return tt) None (λ _, Throw Scripted.bad_key))).1
  = Throw (Error_ "데이터를 가져오는데 실패하였습니다. The parameter is not a valid key.")
  ∧ String.prefix "데이터를 가져오는데 실패하였습니다."
      (exn_message (Error_ "데이터를 가져오는데 실패하였습니다. The parameter is not a valid key."))
    = true.
Proof.
  split; [reflexivity |].
  apply (proj1 (get_rewords_synchronous_errors_only (L := Scripted.lib)
                  "users" JsUndefined
                  (Scripted.world (Return tt) None
                     (λ _, Throw Scripted.bad_key)))).
  reflexivity.
Defined.

(** A string record has one field name for each of its UTF-16 code units:
    one for a Hangul syllable, two for a character outside the basic
    plane. *)
Example for_in_keys_of_strings :
  for_in_keys (JsString "abc") = ["0"; "1"; "2"]
  ∧ for_in_keys (JsString "한") = ["0"]
  ∧ for_in_keys (JsString "한글") = ["0"; "1"]
  ∧ for_in_keys (JsString "😀") = ["0"; "1"]
  ∧ for_in_keys (JsString "") = [].
Proof. repeat split; reflexivity. Qed.

(** On a table whose fields are [0] and [1], the one-syllable string is
    accepted and a string of three letters is refused for its index [2]. *)
Example add_string_records :
  let digits : Table :=
    {| table_name := "digits";
       schema := {| primKey := {| idx_name := "0" |};
                    idxByName := [("1", {| idx_name := "1" |})] |} |} in
  let w := world_of (L := Stub.lib)
             {| Stub.name := "myDB"; Stub.verno := 1; Stub.tables := [digits];
                Stub.is_open := true; Stub.bulk_failures := [] |} [] in
  (validExistTableSchema "digits" (JsString "한") w).1 = Return tt
  ∧ (validExistTableSchema "digits" (JsString "abc") w).1
    = Throw (Error_ "2는 유효하지 않은 스키마입니다.").
Proof. split; reflexivity. Qed.

(** After a one-syllable string, whose only index [0] is registered, the
    first unknown field name is [email] of the next record. *)
Example first_unknown_after_a_string :
  let zero : Table :=
    {| table_name := "zero";
       schema := {| primKey := {| idx_name := "0" |}; idxByName := [] |} |} in
  let w := world_of (L := Stub.lib)
             {| Stub.name := "myDB"; Stub.verno := 1; Stub.tables := [zero];
                Stub.is_open := true; Stub.bulk_failures := [] |} [] in
  (validExistTableSchema "zero"
     (JsArray [JsString "한"; JsObject [("email", JsNumber 1)]]) w).1
  = Throw (Error_ "email는 유효하지 않은 스키마입니다.")
  ∧ field_names (JsString "한") ≠ field_names (JsString "abc").
Proof. split; [reflexivity | discriminate]. Qed.

End FurtherInstances.
